(** * Shared-process worker: a shallow embedding

    The development follows two source files:

    - [vs/platform/sharedProcess/common/sharedProcessWorkerService.ts]
      (the configuration types and [hash]);
    - [vs/platform/sharedProcess/electron-browser/sharedProcessWorker.ts]
      (the message enum, [SharedProcessWorkerMain],
      [SharedProcessWorkerProcess] and the [Logger] namespace).

    JavaScript objects that the code mutates or shares ([reply] objects,
    controller objects, child processes) live in an explicit store, and the
    handlers are written in a state-and-exception monad over that store.
    Everything the code does to the outside (posting a message to the owner,
    forking, killing, closing the worker scope, relaying) is appended to a
    chronological log of effects. *)

From stdpp Require Import gmap strings list fin_maps pretty.

Open Scope string_scope.

(** ** Configuration types (sharedProcessWorkerService.ts) *)

Record ISharedProcessWorkerProcess := mkProcess {
  moduleId : string;
  type : string
}.

(** The [reply] object of a configuration.  It is the one object of a
    configuration that the code writes to, so configurations refer to it
    through a location of [replyHeap]. *)
Record Reply := mkReply {
  windowId : Z;
  channel : string;
  nonce : string
}.

Record ISharedProcessWorkerConfiguration := mkConfiguration {
  process : ISharedProcessWorkerProcess;
  reply : nat                        (* reference into [replyHeap] *)
}.

(** What [hashObject] sees when it walks a configuration object. *)
Record ConfigurationValue := mkConfigurationValue {
  process_value : ISharedProcessWorkerProcess;
  reply_value : Reply
}.

#[global] Instance ISharedProcessWorkerProcess_eq_dec :
  EqDecision ISharedProcessWorkerProcess.
Proof. solve_decision. Defined.

#[global] Instance Reply_eq_dec : EqDecision Reply.
Proof. solve_decision. Defined.

(** ** Message types (sharedProcessWorker.ts, first part) *)

Module SharedProcessWorkerMessages.
Definition RequestPort := "vscode:shared-process-worker->shared-process=requestPort".
Definition ReceivePort := "vscode:shared-process->shared-process-worker=receivePort".
Definition WorkerReady := "vscode:shared-process-worker->shared-process=ready".
Definition WorkerTerminate := "vscode:shared-process->shared-process-worker=terminate".
Definition WorkerTrace := "vscode:shared-process-worker->shared-process=trace".
Definition WorkerWarn := "vscode:shared-process-worker->shared-process=warn".
Definition WorkerError := "vscode:shared-process-worker->shared-process=error".
End SharedProcessWorkerMessages.

Record ISharedProcessWorkerEnvironment := mkEnvironment {
  bootstrapPath : string
}.

Record ISharedProcessToWorkerMessage := mkToWorker {
  msg_id : string;
  msg_configuration : ISharedProcessWorkerConfiguration;
  msg_environment : option ISharedProcessWorkerEnvironment
}.

Record IWorkerToSharedProcessMessage := mkToSharedProcess {
  id : string;
  message : option string
}.

(** An entry of the [transfer] array: a [MessagePort] (identified by a
    number) or some other transferable object. *)
Inductive Transferable :=
| MessagePort (port : nat)
| OtherTransferable.

(** ** The store *)

(** A forked child process as the controller sees it: its [connected]
    flag, whether [kill()] was called on it, and the controller whose
    ['error'], ['exit'] and ['message'] listeners [spawn] attached. *)
Record ChildProcess := mkChild {
  connected : bool;
  killed : bool;
  listeners : option nat
}.

(** A [SharedProcessWorkerProcess] object. *)
Record SharedProcessWorkerProcess := mkWorkerProcess {
  port : nat;
  configuration : ISharedProcessWorkerConfiguration;
  environment : ISharedProcessWorkerEnvironment;
  child : option nat;
  isDisposed : bool
}.

Inductive Effect :=
| PostMessage (m : IWorkerToSharedProcessMessage)      (* global postMessage *)
| Fork (modulePath : string) (args : list string) (env : gmap string string)
| Kill (pid : nat)                                     (* child.kill() *)
| Close                                                (* global close() *)
| ChildSend (pid : nat) (payload : string)             (* child.send(..) *)
| PortPostMessage (port : nat) (data : list Byte.byte) (* port.postMessage(..) *)
| ConsoleLog (msg : string) (label : string).          (* log(msg, label) *)

Record World := mkWorld {
  replyHeap : gmap nat Reply;
  processes : list SharedProcessWorkerProcess;    (* controller objects, by reference *)
  mapConfigurationToProcess : gmap Z nat;
  children : list ChildProcess;                   (* forked children, by pid *)
  portOnmessage : gmap nat nat;                   (* port.onmessage, per port *)
  closed : bool;                                  (* close() was called *)
  effects : list Effect                           (* oldest first *)
}.

Definition set_replyHeap (f : gmap nat Reply → gmap nat Reply) (w : World) : World :=
  mkWorld (f (replyHeap w)) (processes w) (mapConfigurationToProcess w)
          (children w) (portOnmessage w) (closed w) (effects w).

Definition set_processes
    (f : list SharedProcessWorkerProcess → list SharedProcessWorkerProcess)
    (w : World) : World :=
  mkWorld (replyHeap w) (f (processes w)) (mapConfigurationToProcess w)
          (children w) (portOnmessage w) (closed w) (effects w).

Definition set_map (f : gmap Z nat → gmap Z nat) (w : World) : World :=
  mkWorld (replyHeap w) (processes w) (f (mapConfigurationToProcess w))
          (children w) (portOnmessage w) (closed w) (effects w).

Definition set_children (f : list ChildProcess → list ChildProcess) (w : World) : World :=
  mkWorld (replyHeap w) (processes w) (mapConfigurationToProcess w)
          (f (children w)) (portOnmessage w) (closed w) (effects w).

Definition set_portOnmessage (f : gmap nat nat → gmap nat nat) (w : World) : World :=
  mkWorld (replyHeap w) (processes w) (mapConfigurationToProcess w)
          (children w) (f (portOnmessage w)) (closed w) (effects w).

Definition set_closed (b : bool) (w : World) : World :=
  mkWorld (replyHeap w) (processes w) (mapConfigurationToProcess w)
          (children w) (portOnmessage w) b (effects w).

Definition emit (e : Effect) (w : World) : World :=
  mkWorld (replyHeap w) (processes w) (mapConfigurationToProcess w)
          (children w) (portOnmessage w) (closed w) (effects w ++ [e])%list.

(** ** The monad of handlers: state plus JavaScript exceptions *)

Inductive Completion (A : Type) :=
| Normal (a : A)
| Thrown (error : string).
Arguments Normal {A} a.
Arguments Thrown {A} error.

Definition M (A : Type) : Type := World → Completion A * World.

Definition ret {A} (a : A) : M A := fun w => (Normal a, w).

Definition throw {A} (error : string) : M A := fun w => (Thrown error, w).

Definition bind {A B} (c : M A) (k : A → M B) : M B :=
  fun w =>
    match c w with
    | (Normal a, w') => k a w'
    | (Thrown e, w') => (Thrown e, w')
    end.

Definition tryCatch {A} (body : M A) (handler : string → M A) : M A :=
  fun w =>
    match body w with
    | (Normal a, w') => (Normal a, w')
    | (Thrown e, w') => handler e w'
    end.

Definition modify (f : World → World) : M unit := fun w => (Normal tt, f w).

Declare Scope js_scope.
Delimit Scope js_scope with js.
Notation "'let*' x ':=' c1 'in' c2" := (bind c1 (fun x => c2))
  (at level 10, x name, c1 at level 100, c2 at level 200) : js_scope.
Notation "c1 ';;;' c2" := (bind c1 (fun _ => c2))
  (at level 100, c2 at level 200, right associativity) : js_scope.
Open Scope js_scope.

(** ** [Logger] and the worker globals *)

Definition postMessage (m : IWorkerToSharedProcessMessage) : M unit :=
  modify (emit (PostMessage m)).

(** The global [close()] of the worker scope.  The running handler goes on
    to its end; the call is recorded. *)
Definition close : M unit :=
  modify (fun w => emit Close (set_closed true w)).

Module Logger.
Definition error (message : string) : M unit :=
  postMessage (mkToSharedProcess SharedProcessWorkerMessages.WorkerError (Some message)).

Definition warn (message : string) : M unit :=
  postMessage (mkToSharedProcess SharedProcessWorkerMessages.WorkerWarn (Some message)).

Definition trace (message : string) : M unit :=
  postMessage (mkToSharedProcess SharedProcessWorkerMessages.WorkerTrace (Some message)).
End Logger.

(** ** What the two files import and do not define *)

Record Externals := mkExternals {
  (** [hash] of vs/base/common/hash, applied to a configuration object. *)
  hashObject : ConfigurationValue → Z;
  (** [fork] of child_process: [Some e] when the call throws [e].  The
      last argument is the number of children forked so far. *)
  forkThrows : string → list string → gmap string string → nat → option string;
  (** [process.env] and [process.pid] of the hosting process. *)
  process_env : gmap string string;
  process_pid : Z;
  (** [removeDangerousEnvVariables] of vs/base/node/processes. *)
  removeDangerousEnvVariables : gmap string string → gmap string string;
  (** [toErrorMessage] of vs/base/common/errorMessage. *)
  toErrorMessage : string → string;
  (** [isRemoteConsoleLog] of vs/base/common/console. *)
  isRemoteConsoleLog : string → bool;
  (** [Buffer.from(msg, 'base64')] and [buffer.toString('base64')]. *)
  fromBase64 : string → list Byte.byte;
  toBase64 : list Byte.byte → string
}.

Section Worker.

Variable ext : Externals.

(** ** [hash] (sharedProcessWorkerService.ts) *)

(** [{ ...configuration }] makes a new top-level object whose [process] and
    [reply] properties are the same references as the original's: the
    spread is shallow. *)
Definition spread (configuration : ISharedProcessWorkerConfiguration)
  : ISharedProcessWorkerConfiguration :=
  mkConfiguration (process configuration) (reply configuration).

(** [configuration.reply.nonce = v]: a write through the [reply]
    reference.  A dangling reference is JavaScript's [undefined], on which
    a property write throws a TypeError. *)
Definition set_reply_nonce (configuration : ISharedProcessWorkerConfiguration)
    (v : string) : M unit :=
  fun w =>
    match replyHeap w !! reply configuration with
    | Some r =>
        (Normal tt,
         set_replyHeap
           <[reply configuration := mkReply (windowId r) (channel r) v]> w)
    | None => (Thrown "TypeError", w)
    end.

(** Reading the whole configuration object, as [hashObject] does. *)
Definition read_configuration (configuration : ISharedProcessWorkerConfiguration)
  : M ConfigurationValue :=
  fun w =>
    match replyHeap w !! reply configuration with
    | Some r => (Normal (mkConfigurationValue (process configuration) r), w)
    | None => (Thrown "TypeError", w)
    end.

Definition hash (configuration : ISharedProcessWorkerConfiguration) : M Z :=
  let configurationCopy := spread configuration in
  set_reply_nonce configurationCopy "" ;;;     (* do not include in hash key *)
  let* v := read_configuration configurationCopy in
  ret (hashObject ext v).

(** ** [SharedProcessWorkerProcess] *)

(** Dereferencing [this]. *)
Definition getProcess (this : nat) : M SharedProcessWorkerProcess :=
  fun w =>
    match processes w !! this with
    | Some p => (Normal p, w)
    | None => (Thrown "TypeError", w)
    end.

Definition set_child (c : option nat) (p : SharedProcessWorkerProcess) :=
  mkWorkerProcess (port p) (configuration p) (environment p) c (isDisposed p).

Definition set_isDisposed (b : bool) (p : SharedProcessWorkerProcess) :=
  mkWorkerProcess (port p) (configuration p) (environment p) (child p) b.

(** [new SharedProcessWorkerProcess(port, configuration, environment)]:
    [child] starts [undefined], [isDisposed] starts [false]. *)
Definition newSharedProcessWorkerProcess (port : nat)
    (configuration : ISharedProcessWorkerConfiguration)
    (environment : ISharedProcessWorkerEnvironment) : M nat :=
  fun w =>
    (Normal (length (processes w)),
     set_processes
       (fun ps => (ps ++ [mkWorkerProcess port configuration environment None false])%list) w).

(** [getEnv]: the ambient environment is cloned, four variables are laid
    over the clone, and the result is sanitized. *)
Definition getEnv (p : SharedProcessWorkerProcess) : gmap string string :=
  let env :=
    <["VSCODE_PARENT_PID" := pretty (process_pid ext)]>
      (<["VSCODE_VERBOSE_LOGGING" := "true"]>
        (<["VSCODE_PIPE_LOGGING" := "true"]>
          (<["VSCODE_AMD_ENTRYPOINT" := moduleId (process (configuration p))]>
            (process_env ext)))) in
  removeDangerousEnvVariables ext env.

(** [fork(modulePath, args, { env })]: throws, or yields a new connected
    child. *)
Definition fork (modulePath : string) (args : list string)
    (env : gmap string string) : M nat :=
  fun w =>
    match forkThrows ext modulePath args env (length (children w)) with
    | Some e => (Thrown e, w)
    | None =>
        (Normal (length (children w)),
         emit (Fork modulePath args env)
              (set_children (fun cs => (cs ++ [mkChild true false None])%list) w))
    end.

(** The three [on] registrations of [spawn] ('error', 'exit', 'message'). *)
Definition attachListeners (c this : nat) : M unit :=
  modify (set_children
            (alter (fun ch => mkChild (connected ch) (killed ch) (Some this)) c)).

Definition spawn (this : nat) : M unit :=
  Logger.trace "Forking worker process" ;;;
  let* p := getProcess this in
  let* c := fork (bootstrapPath (environment p))
                 ["--type=" +:+ type (process (configuration p))]
                 (getEnv p) in
  modify (set_processes (alter (set_child (Some c)) this)) ;;;
  attachListeners c this ;;;
  (* this.port.onmessage = (e => send(VSBuffer.wrap(e.data))) *)
  modify (set_portOnmessage <[port p := this]>).

(** The ['error'] listener. *)
Definition onError (this : nat) (error : string) : M unit :=
  Logger.warn ("Error from child process: " +:+ toErrorMessage ext error).

(** Template-literal rendering of [code] and [signal]. *)
Definition show_code (code : option Z) : string :=
  match code with Some n => pretty n | None => "null" end.

Definition show_signal (signal : option string) : string :=
  match signal with Some s => s | None => "null" end.

(** The ['exit'] listener. *)
Definition onExit (this : nat) (code : option Z) (signal : option string) : M unit :=
  let* p := getProcess this in
  if isDisposed p then ret tt
  else if negb (bool_decide (code = Some 0%Z))
          && negb (bool_decide (signal = Some "SIGTERM"))
  then Logger.error ("Child process crashed with exit code " +:+ show_code code
                     +:+ " and signal " +:+ show_signal signal)
  else ret tt.

(** The ['message'] listener, followed by the listener of
    [onMessageEmitter] that posts to the port. *)
Definition onRawMessage (this : nat) (msg : string) : M unit :=
  let* p := getProcess this in
  if isDisposed p then ret tt
  else if isRemoteConsoleLog ext msg
  then modify (emit (ConsoleLog msg "SharedProcess worker"))
  else modify (emit (PortPostMessage (port p) (fromBase64 ext msg))).

(** [this.child?.connected] *)
Definition child_connected (w : World) (p : SharedProcessWorkerProcess) : bool :=
  match child p with
  | Some c => match children w !! c with
              | Some ch => connected ch
              | None => false
              end
  | None => false
  end.

(** [send], the handler behind [port.onmessage]. *)
Definition send (this : nat) (buffer : list Byte.byte) : M unit :=
  let* p := getProcess this in
  if isDisposed p then ret tt
  else fun w =>
    if child_connected w p
    then match child p with
         | Some c => modify (emit (ChildSend c (toBase64 ext buffer))) w
         | None => ret tt w
         end
    else Logger.warn "Unable to deliver message to disconnected child" w.

(** [dispose]: [super.dispose()] has nothing registered to release; then
    the flag is set and the child, if any, is killed. *)
Definition dispose (this : nat) : M unit :=
  modify (set_processes (alter (set_isDisposed true) this)) ;;;
  let* p := getProcess this in
  match child p with
  | Some c =>
      modify (fun w =>
        emit (Kill c)
          (set_children
             (alter (fun ch => mkChild (connected ch) true (listeners ch)) c) w))
  | None => ret tt
  end.

(** ** [SharedProcessWorkerMain] *)

(** The constructor calls [init], which asks for the port. *)
Definition init : M unit :=
  postMessage (mkToSharedProcess SharedProcessWorkerMessages.RequestPort None).

Definition terminate (configuration : ISharedProcessWorkerConfiguration) : M unit :=
  let* configurationHash := hash configuration in
  fun w =>
    match mapConfigurationToProcess w !! configurationHash with
    | Some process =>
        (Logger.trace "Terminating worker process" ;;;
         dispose process ;;;
         modify (set_map (delete configurationHash)) ;;;
         close) w
    | None => ret tt w
    end.

Definition onReceivePort (port : nat)
    (configuration : ISharedProcessWorkerConfiguration)
    (environment : ISharedProcessWorkerEnvironment) : M unit :=
  Logger.trace "Received the message port and configuration" ;;;
  tryCatch
    ((* Ensure to terminate any existing process for config *)
     terminate configuration ;;;
     (* Spawn a new worker process with given configuration *)
     let* process := newSharedProcessWorkerProcess port configuration environment in
     spawn process ;;;
     (* Remember in map for lifecycle *)
     let* key := hash configuration in
     modify (set_map <[key := process]>) ;;;
     (* Indicate we are ready *)
     Logger.trace "Worker is ready" ;;;
     postMessage (mkToSharedProcess SharedProcessWorkerMessages.WorkerReady None))
    (fun error =>
       Logger.error ("Unexpected error forking worker process: "
                     +:+ toErrorMessage ext error)).

Definition onTerminate (configuration : ISharedProcessWorkerConfiguration) : M unit :=
  terminate configuration.

(** [`Unexpected message '${message}'`]: the message is an object, which a
    template literal renders as [[object Object]]. *)
Definition notifyMessage (message : ISharedProcessToWorkerMessage)
    (transfer : list Transferable) : M unit :=
  if bool_decide (msg_id message = SharedProcessWorkerMessages.ReceivePort) then
    match head transfer, msg_environment message with
    | Some (MessagePort port), Some environment =>
        onReceivePort port (msg_configuration message) environment
    | _, _ => ret tt
    end
  else if bool_decide (msg_id message = SharedProcessWorkerMessages.WorkerTerminate) then
    onTerminate (msg_configuration message)
  else
    Logger.warn "Unexpected message '[object Object]'".

(** ** The worker as a reactor

    [create] builds the [SharedProcessWorkerMain] (whose constructor runs
    [init]) and hands [notifyMessage] to the hosting worker scope.  The
    other entry points are the listeners that [spawn] registered.  A
    control message arrives as a structured clone, so its [reply] object is
    a new object of the store. *)

Definition emptyWorld : World := mkWorld ∅ [] ∅ [] ∅ false [].

Definition create : World := snd (init emptyWorld).

Inductive Event :=
| OnMessage (ident : string) (configuration : ConfigurationValue)
            (environment : option ISharedProcessWorkerEnvironment)
            (transfer : list Transferable)
| ChildError (pid : nat) (error : string)
| ChildExit (pid : nat) (code : option Z) (signal : option string)
| ChildMessage (pid : nat) (msg : string)
| ChildDisconnect (pid : nat)
| PortMessage (port : nat) (data : list Byte.byte).

Definition receive (v : ConfigurationValue) : M ISharedProcessWorkerConfiguration :=
  fun w =>
    let l := fresh (dom (replyHeap w)) in
    (Normal (mkConfiguration (process_value v) l),
     set_replyHeap <[l := reply_value v]> w).

Definition withListener (pid : nat) (k : nat → M unit) : M unit :=
  fun w =>
    match children w !! pid ≫= listeners with
    | Some this => k this w
    | None => ret tt w
    end.

Definition handle (e : Event) : M unit :=
  match e with
  | OnMessage ident v environment transfer =>
      let* configuration := receive v in
      notifyMessage (mkToWorker ident configuration environment) transfer
  | ChildError pid error => withListener pid (fun this => onError this error)
  | ChildExit pid code signal => withListener pid (fun this => onExit this code signal)
  | ChildMessage pid msg => withListener pid (fun this => onRawMessage this msg)
  | ChildDisconnect pid =>
      modify (set_children
                (alter (fun ch => mkChild false (killed ch) (listeners ch)) pid))
  | PortMessage port data =>
      fun w =>
        match portOnmessage w !! port with
        | Some this => send this data w
        | None => ret tt w
        end
  end.

Definition step (w : World) (e : Event) : World := snd (handle e w).

Definition run (es : list Event) (w : World) : World := foldl step w es.

Inductive reachable : World → Prop :=
| reachable_create : reachable create
| reachable_step w e : reachable w → reachable (step w e).

End Worker.

(** ** A concrete host, for running the model *)

Module Sample.

(** A 31-multiplier digest over the fields, wrapped to 32 bits. *)
Definition wrap32 (z : Z) : Z := ((z + 2 ^ 31) mod 2 ^ 32 - 2 ^ 31)%Z.

Fixpoint stringHash (s : string) (hashVal : Z) : Z :=
  match s with
  | EmptyString => hashVal
  | String a s' => stringHash s' (wrap32 (hashVal * 31 + Z.of_N (Ascii.N_of_ascii a)))
  end.

Definition hashObject (v : ConfigurationValue) : Z :=
  stringHash (nonce (reply_value v))
    (stringHash (channel (reply_value v))
      (wrap32 (31 * stringHash (type (process_value v))
                      (stringHash (moduleId (process_value v)) 0)
               + windowId (reply_value v)))).

(** A host on which every [fork] succeeds. *)
Definition ext : Externals :=
  mkExternals hashObject (fun _ _ _ _ => None) ∅ 4242
              (delete "ELECTRON_RUN_AS_NODE") (fun e => e)
              (fun msg => bool_decide (msg = "__$console"))
              (fun _ => []) (fun _ => "").

(** A host on which only the first [fork] succeeds. *)
Definition ext_failing : Externals :=
  mkExternals hashObject
              (fun _ _ _ forked => if forked is O then None else Some "spawn ENOENT")
              ∅ 4242
              (delete "ELECTRON_RUN_AS_NODE") (fun e => e)
              (fun msg => bool_decide (msg = "__$console"))
              (fun _ => []) (fun _ => "").

(** A host whose own environment already sets a variable of the worker. *)
Definition ext_env : Externals :=
  mkExternals hashObject (fun _ _ _ _ => None)
              {[ "VSCODE_PIPE_LOGGING" := "false"; "HOME" := "/home/user" ]} 4242
              (delete "ELECTRON_RUN_AS_NODE") (fun e => e)
              (fun msg => bool_decide (msg = "__$console"))
              (fun _ => []) (fun _ => "").

Definition m1 (n : string) : ConfigurationValue :=
  mkConfigurationValue (mkProcess "m1" "t1") (mkReply 1 "c" n).

Definition m2 (n : string) : ConfigurationValue :=
  mkConfigurationValue (mkProcess "m2" "t2") (mkReply 1 "c" n).

Definition env : ISharedProcessWorkerEnvironment := mkEnvironment "/bootstrap-fork.js".

Definition handoff (v : ConfigurationValue) (port : nat) : Event :=
  OnMessage SharedProcessWorkerMessages.ReceivePort v (Some env) [MessagePort port].

Definition terminate_request (v : ConfigurationValue) : Event :=
  OnMessage SharedProcessWorkerMessages.WorkerTerminate v None [].

(** The first controller of the scenarios, as [new] and [spawn] leave it. *)
Definition controller0 : SharedProcessWorkerProcess :=
  mkWorkerProcess 7 (mkConfiguration (mkProcess "m1" "t1") 0) env (Some 0) false.

(** The key of [m1], whatever its nonce. *)
Definition key1 : Z := hashObject (m1 "").

End Sample.

(** * Properties *)

(** The key under which a configuration is registered: the digest of the
    configuration as it reads once its [nonce] is blanked. *)
Definition blank_nonce (r : Reply) : Reply := mkReply (windowId r) (channel r) "".

Definition key_of (ext : Externals) (w : World)
    (configuration : ISharedProcessWorkerConfiguration) : option Z :=
  (fun r => hashObject ext (mkConfigurationValue (process configuration) (blank_nonce r)))
    <$> replyHeap w !! reply configuration.

(** Counting the messages of one kind among posted effects. *)
Definition posts (ident : string) (e : Effect) : bool :=
  match e with
  | PostMessage m => bool_decide (id m = ident)
  | _ => false
  end.

Definition count_posted (ident : string) (es : list Effect) : nat :=
  length (filter (fun e => posts ident e = true) es).

(** A controller is live once its child is forked and until it is disposed. *)
Definition live (w : World) (this : nat) : bool :=
  match processes w !! this with
  | Some p => bool_decide (is_Some (child p)) && negb (isDisposed p)
  | None => false
  end.

Definition fingerprint_of (ext : Externals) (w : World) (this : nat) : option Z :=
  processes w !! this ≫= fun p => key_of ext w (configuration p).

Definition disposed (w : World) (this : nat) : bool :=
  match processes w !! this with
  | Some p => isDisposed p
  | None => false
  end.

(** The store that [dispose] leaves behind on a controller whose [child]
    field holds [c]. *)
Definition after_dispose (this : nat) (c : option nat) (w : World) : World :=
  let w1 := set_processes (alter (set_isDisposed true) this) w in
  match c with
  | Some pid =>
      emit (Kill pid)
        (set_children
           (alter (fun ch => mkChild (connected ch) true (listeners ch)) pid) w1)
  | None => w1
  end.

Definition kill_effects (c : option nat) : list Effect :=
  match c with Some pid => [Kill pid] | None => [] end.

Definition trace_message (text : string) : Effect :=
  PostMessage (mkToSharedProcess SharedProcessWorkerMessages.WorkerTrace (Some text)).

Definition warn_message (text : string) : Effect :=
  PostMessage (mkToSharedProcess SharedProcessWorkerMessages.WorkerWarn (Some text)).

Definition error_message (text : string) : Effect :=
  PostMessage (mkToSharedProcess SharedProcessWorkerMessages.WorkerError (Some text)).

(** The controller object that [new SharedProcessWorkerProcess(..)] makes. *)
Definition fresh_controller (port : nat)
    (configuration : ISharedProcessWorkerConfiguration)
    (environment : ISharedProcessWorkerEnvironment) : SharedProcessWorkerProcess :=
  mkWorkerProcess port configuration environment None false.

(** What a controller's [spawn] asks of [fork], in a store with
    [forked] children so far: [Some e] when that call throws [e]. *)
Definition fork_outcome (ext : Externals) (p : SharedProcessWorkerProcess)
    (forked : nat) : option string :=
  forkThrows ext (bootstrapPath (environment p))
             ["--type=" +:+ type (process (configuration p))]
             (getEnv ext p) forked.

Definition fork_effect (ext : Externals) (p : SharedProcessWorkerProcess) : Effect :=
  Fork (bootstrapPath (environment p))
       ["--type=" +:+ type (process (configuration p))]
       (getEnv ext p).

(** The store that a [spawn] whose [fork] succeeds leaves behind. *)
Definition after_spawn (ext : Externals) (this : nat)
    (p : SharedProcessWorkerProcess) (w : World) : World :=
  let c := length (children w) in
  set_portOnmessage <[port p := this]>
    (set_children (alter (fun ch => mkChild (connected ch) (killed ch) (Some this)) c)
       (set_processes (alter (set_child (Some c)) this)
          (emit (fork_effect ext p)
             (set_children (fun cs => (cs ++ [mkChild true false None])%list)
                (emit (trace_message "Forking worker process") w))))).

Definition ready_message : Effect :=
  PostMessage (mkToSharedProcess SharedProcessWorkerMessages.WorkerReady None).

(** The registry invariant between two handler runs: every controller's
    [reply] object exists, every live controller is the registry's entry
    under its own key, and every entry of the registry is a live controller
    filed under its own key. *)
Record registry_ok (ext : Externals) (w : World) : Prop := mkRegistryOk {
  ok_heap : ∀ this p,
    processes w !! this = Some p →
    is_Some (replyHeap w !! reply (configuration p));
  ok_live : ∀ this,
    live w this = true →
    ∃ k, fingerprint_of ext w this = Some k
         ∧ mapConfigurationToProcess w !! k = Some this;
  ok_registered : ∀ k this,
    mapConfigurationToProcess w !! k = Some this →
    live w this = true ∧ fingerprint_of ext w this = Some k
}.

(** How the store can only move while handlers run: the log grows at its
    end, [close()] is never taken back, and a disposed controller stays
    disposed. *)
Record evolves (w w' : World) : Prop := mkEvolves {
  ev_effects : effects w `prefix_of` effects w';
  ev_closed : closed w = true → closed w' = true;
  ev_disposed : ∀ this, disposed w this = true → disposed w' this = true;
  ev_processes : (length (processes w) ≤ length (processes w'))%nat
}.

Definition extends {A} (c : M A) : Prop := ∀ w, evolves w (snd (c w)).

(** ** Notions for the properties of the whole worker *)

(** Counting the effects of one kind in a log. *)
Fixpoint count_effect (f : Effect → bool) (es : list Effect) : nat :=
  match es with
  | [] => 0
  | e :: es' => (if f e then 1 else 0) + count_effect f es'
  end.

Definition is_fork (e : Effect) : bool :=
  match e with Fork _ _ _ => true | _ => false end.

Definition is_kill (e : Effect) : bool :=
  match e with Kill _ => true | _ => false end.

Definition is_close (e : Effect) : bool :=
  match e with Close => true | _ => false end.

Definition is_send_to (pid : nat) (e : Effect) : bool :=
  match e with ChildSend c _ => bool_decide (c = pid) | _ => false end.

(** What the relay does with one raw message of the child of a controller
    bound to port [pt], and with one buffer that arrives on the port of a
    controller whose child is [pid]. *)
Definition relay_out (ext : Externals) (pt : nat) (msg : string) : Effect :=
  if isRemoteConsoleLog ext msg
  then ConsoleLog msg "SharedProcess worker"
  else PortPostMessage pt (fromBase64 ext msg).

Definition relay_in (ext : Externals) (pid : nat) (buffer : list Byte.byte) : Effect :=
  ChildSend pid (toBase64 ext buffer).

(** The stores that differ only by what was appended to the log. *)
Definition only_logs (w w' : World) : Prop :=
  replyHeap w' = replyHeap w
  ∧ processes w' = processes w
  ∧ mapConfigurationToProcess w' = mapConfigurationToProcess w
  ∧ children w' = children w
  ∧ portOnmessage w' = portOnmessage w
  ∧ closed w' = closed w
  ∧ effects w `prefix_of` effects w'.

(** The variables that [getEnv] lays over the inherited environment. *)
Definition overlaid (key : string) : bool :=
  bool_decide (key ∈ ["VSCODE_AMD_ENTRYPOINT"; "VSCODE_PIPE_LOGGING";
                      "VSCODE_VERBOSE_LOGGING"; "VSCODE_PARENT_PID"]).

(** The effects that leave the bookkeeping of the worker alone: a trace, a
    warning or an error posted to the owner, and the relay from a child to
    its port. *)
Definition quiet (e : Effect) : bool :=
  match e with
  | PostMessage m =>
      bool_decide (id m ∈ [SharedProcessWorkerMessages.WorkerTrace;
                           SharedProcessWorkerMessages.WorkerWarn;
                           SharedProcessWorkerMessages.WorkerError])
  | PortPostMessage _ _ | ConsoleLog _ _ => true
  | ChildSend _ _ | Fork _ _ _ | Kill _ | Close => false
  end.

(** The moves of which every handler run is composed, described by what
    they do to the store apart from the [reply] objects:
    - posting diagnostics and relaying from a child to its port;
    - relaying a buffer from a port to a connected child;
    - a child losing its channel;
    - [terminate] finding the registered, live controller of a key;
    - a handoff constructing a controller whose [fork] then throws;
    - a handoff constructing, forking and registering a controller. *)
Inductive transition (ext : Externals) (w w' : World) : Prop :=
| transition_quiet (new : list Effect) :
    forallb quiet new = true →
    processes w' = processes w →
    mapConfigurationToProcess w' = mapConfigurationToProcess w →
    children w' = children w →
    portOnmessage w' = portOnmessage w →
    closed w' = closed w →
    effects w' = (effects w ++ new)%list →
    transition ext w w'
| transition_relay_in (pid : nat) (payload : string) :
    connected <$> children w !! pid = Some true →
    processes w' = processes w →
    mapConfigurationToProcess w' = mapConfigurationToProcess w →
    children w' = children w →
    portOnmessage w' = portOnmessage w →
    closed w' = closed w →
    effects w' = (effects w ++ [ChildSend pid payload])%list →
    transition ext w w'
| transition_disconnect (pid : nat) :
    processes w' = processes w →
    mapConfigurationToProcess w' = mapConfigurationToProcess w →
    children w' = alter (fun ch => mkChild false (killed ch) (listeners ch)) pid (children w) →
    portOnmessage w' = portOnmessage w →
    closed w' = closed w →
    effects w' = effects w →
    transition ext w w'
| transition_terminate (k : Z) (this c : nat) (p : SharedProcessWorkerProcess) :
    mapConfigurationToProcess w !! k = Some this →
    processes w !! this = Some p →
    child p = Some c →
    isDisposed p = false →
    processes w' = alter (set_isDisposed true) this (processes w) →
    mapConfigurationToProcess w' = delete k (mapConfigurationToProcess w) →
    children w' = alter (fun ch => mkChild (connected ch) true (listeners ch)) c (children w) →
    portOnmessage w' = portOnmessage w →
    closed w' = true →
    effects w' = (effects w ++ [trace_message "Terminating worker process";
                                Kill c; Close])%list →
    transition ext w w'
| transition_fork_fails (p : SharedProcessWorkerProcess) (e : string) :
    child p = None →
    isDisposed p = false →
    processes w' = (processes w ++ [p])%list →
    mapConfigurationToProcess w' = mapConfigurationToProcess w →
    children w' = children w →
    portOnmessage w' = portOnmessage w →
    closed w' = closed w →
    effects w' = (effects w
                  ++ [trace_message "Forking worker process";
                      error_message ("Unexpected error forking worker process: "
                                     +:+ toErrorMessage ext e)])%list →
    transition ext w w'
| transition_spawn (k : Z) (p : SharedProcessWorkerProcess) :
    mapConfigurationToProcess w !! k = None →
    child p = None →
    isDisposed p = false →
    processes w' = (processes w ++ [set_child (Some (length (children w))) p])%list →
    mapConfigurationToProcess w' = <[k := length (processes w)]> (mapConfigurationToProcess w) →
    children w' = (children w ++ [mkChild true false (Some (length (processes w)))])%list →
    portOnmessage w' = <[port p := length (processes w)]> (portOnmessage w) →
    closed w' = closed w →
    effects w' = (effects w
                  ++ [trace_message "Forking worker process";
                      fork_effect ext p;
                      trace_message "Worker is ready";
                      ready_message])%list →
    transition ext w w'.

(** What the log says about the store. *)
Record log_ok (w : World) : Prop := mkLogOk {
  log_request : count_posted SharedProcessWorkerMessages.RequestPort (effects w) = 1;
  log_forks : count_effect is_fork (effects w) = length (children w);
  log_ready : count_posted SharedProcessWorkerMessages.WorkerReady (effects w)
              = length (children w);
  log_kills : count_effect is_kill (effects w) = count_effect is_close (effects w);
  log_closed : closed w = true ↔ 0 < count_effect is_close (effects w)
}.

(** How controllers, children and ports are wired to each other. *)
Record wiring_ok (w : World) : Prop := mkWiringOk {
  wired_owner : ∀ this p c,
    processes w !! this = Some p → child p = Some c →
    ∃ ch, children w !! c = Some ch ∧ listeners ch = Some this
          ∧ killed ch = isDisposed p;
  wired_owned : ∀ c ch,
    children w !! c = Some ch →
    ∃ this p, listeners ch = Some this ∧ processes w !! this = Some p
              ∧ child p = Some c;
  wired_ports : ∀ pt this,
    portOnmessage w !! pt = Some this →
    ∃ p, processes w !! this = Some p ∧ is_Some (child p);
  wired_disposed : ∀ this, disposed w this = true → closed w = true
}.

Section WorkerFacts.

Variable ext : Externals.

(** ** [hash] *)

Lemma hash_run configuration w r :
  replyHeap w !! reply configuration = Some r →
  hash ext configuration w =
    (Normal (hashObject ext (mkConfigurationValue (process configuration) (blank_nonce r))),
     set_replyHeap <[reply configuration := blank_nonce r]> w).
Proof.
  intros Hr. unfold hash, bind, set_reply_nonce, read_configuration, spread, ret.
  simpl. rewrite Hr. simpl. rewrite lookup_insert_eq. reflexivity.
Qed.

Lemma hash_dangling configuration w :
  replyHeap w !! reply configuration = None →
  hash ext configuration w = (Thrown "TypeError", w).
Proof.
  intros Hr. unfold hash, bind, set_reply_nonce, spread. simpl. now rewrite Hr.
Qed.

(** C4: two configurations that differ only in [reply.nonce] hash to the
    same key, whether both are hashed in the same store or one after the
    other (the second call then runs in the store the first one left). *)
Theorem hash_ignores_nonce (c1 c2 : ISharedProcessWorkerConfiguration)
    (w : World) (r1 r2 : Reply) :
  replyHeap w !! reply c1 = Some r1 →
  replyHeap w !! reply c2 = Some r2 →
  process c1 = process c2 →
  windowId r1 = windowId r2 →
  channel r1 = channel r2 →
  ∃ k, fst (hash ext c1 w) = Normal k
       ∧ fst (hash ext c2 w) = Normal k
       ∧ fst (hash ext c2 (snd (hash ext c1 w))) = Normal k.
Proof.
  intros H1 H2 Hp Hw Hc.
  exists (hashObject ext (mkConfigurationValue (process c1) (blank_nonce r1))).
  assert (Hb : blank_nonce r2 = blank_nonce r1).
  { unfold blank_nonce. now rewrite Hw, Hc. }
  rewrite (hash_run c1 w r1 H1), (hash_run c2 w r2 H2). simpl.
  rewrite <- Hp, Hb. repeat split.
  destruct (decide (reply c1 = reply c2)) as [Heq|Hne].
  - erewrite hash_run; [|simpl; rewrite Heq; apply lookup_insert_eq].
    simpl. now rewrite <- Hp.
  - erewrite hash_run; [|simpl; rewrite lookup_insert_ne; eauto].
    simpl. now rewrite <- Hp, Hb.
Qed.

(** [hash] writes the blanked [reply] back into the caller's object. *)
Lemma hash_writes_reply configuration w r :
  replyHeap w !! reply configuration = Some r →
  replyHeap (snd (hash ext configuration w)) !! reply configuration
  = Some (blank_nonce r).
Proof.
  intros Hr. rewrite (hash_run _ _ _ Hr). simpl. apply lookup_insert_eq.
Qed.

(** ** Stores only move forward *)

Lemma evolves_refl w : evolves w w.
Proof. split; auto. Qed.

Lemma evolves_trans w1 w2 w3 : evolves w1 w2 → evolves w2 w3 → evolves w1 w3.
Proof.
  intros [E1 C1 D1 L1] [E2 C2 D2 L2]. split; auto.
  - etransitivity; eauto.
  - lia.
Qed.

Lemma evolves_emit e w : evolves w (emit e w).
Proof. split; simpl; auto. now apply prefix_app_r. Qed.

Lemma evolves_set_replyHeap f w : evolves w (set_replyHeap f w).
Proof. split; auto. Qed.

Lemma evolves_set_map f w : evolves w (set_map f w).
Proof. split; auto. Qed.

Lemma evolves_set_children f w : evolves w (set_children f w).
Proof. split; auto. Qed.

Lemma evolves_set_portOnmessage f w : evolves w (set_portOnmessage f w).
Proof. split; auto. Qed.

Lemma evolves_close w : evolves w (emit Close (set_closed true w)).
Proof. split; simpl; auto. now apply prefix_app_r. Qed.

Lemma disposed_alter f this' this w :
  (∀ p, isDisposed p = true → isDisposed (f p) = true) →
  disposed w this = true →
  disposed (set_processes (alter f this') w) this = true.
Proof.
  intros Hf. unfold disposed. simpl.
  destruct (decide (this' = this)) as [->|Hne].
  - rewrite list_lookup_alter_eq. destruct (processes w !! this); simpl; auto.
  - rewrite list_lookup_alter_ne by done. auto.
Qed.

Lemma evolves_alter f this w :
  (∀ p, isDisposed p = true → isDisposed (f p) = true) →
  evolves w (set_processes (alter f this) w).
Proof.
  intros Hf. split; simpl; auto.
  - intros this'. now apply disposed_alter.
  - now rewrite length_alter.
Qed.

Lemma evolves_new p w :
  evolves w (set_processes (fun ps => (ps ++ [p])%list) w).
Proof.
  split; simpl; auto.
  - intros this. unfold disposed. simpl.
    destruct (processes w !! this) eqn:E; [|discriminate].
    now rewrite (lookup_app_l_Some _ _ _ _ E).
  - rewrite length_app. lia.
Qed.

Lemma extends_ret {A} (a : A) : extends (ret a).
Proof. intros w. apply evolves_refl. Qed.

Lemma extends_modify f : (∀ w, evolves w (f w)) → extends (modify f).
Proof. intros Hf w. apply Hf. Qed.

Lemma extends_bind {A B} (c : M A) (k : A → M B) :
  extends c → (∀ a, extends (k a)) → extends (bind c k).
Proof.
  intros Hc Hk w. unfold bind. specialize (Hc w).
  destruct (c w) as [[a|e] w1]; simpl in *; auto.
  eapply evolves_trans; [exact Hc | apply Hk].
Qed.

Lemma extends_tryCatch {A} (c : M A) (h : string → M A) :
  extends c → (∀ e, extends (h e)) → extends (tryCatch c h).
Proof.
  intros Hc Hh w. unfold tryCatch. specialize (Hc w).
  destruct (c w) as [[a|e] w1]; simpl in *; auto.
  eapply evolves_trans; [exact Hc | apply Hh].
Qed.

Lemma extends_postMessage m : extends (postMessage m).
Proof. apply extends_modify, evolves_emit. Qed.

Lemma extends_hash configuration : extends (hash ext configuration).
Proof.
  intros w. destruct (replyHeap w !! reply configuration) as [r|] eqn:E.
  - rewrite (hash_run _ _ _ E). apply evolves_set_replyHeap.
  - rewrite (hash_dangling _ _ E). apply evolves_refl.
Qed.

Lemma extends_getProcess this : extends (getProcess this).
Proof. intros w. unfold getProcess. destruct (_ !! _); apply evolves_refl. Qed.

Lemma extends_fork modulePath args env : extends (fork ext modulePath args env).
Proof.
  intros w. unfold fork. destruct (forkThrows _ _ _ _ _); simpl.
  - apply evolves_refl.
  - eapply evolves_trans; [apply evolves_set_children | apply evolves_emit].
Qed.

Lemma extends_spawn this : extends (spawn ext this).
Proof.
  unfold spawn, Logger.trace.
  apply extends_bind; [apply extends_postMessage | intros _].
  apply extends_bind; [apply extends_getProcess | intros p].
  apply extends_bind; [apply extends_fork | intros c].
  apply extends_bind; [apply extends_modify | intros _].
  { intros w. now apply evolves_alter. }
  apply extends_bind; [apply extends_modify | intros _].
  { intros w. apply evolves_set_children. }
  apply extends_modify. intros w. apply evolves_set_portOnmessage.
Qed.

Lemma extends_dispose this : extends (dispose this).
Proof.
  unfold dispose.
  apply extends_bind; [apply extends_modify | intros _].
  { intros w. now apply evolves_alter. }
  apply extends_bind; [apply extends_getProcess | intros p].
  destruct (child p); [|apply extends_ret].
  apply extends_modify. intros w.
  eapply evolves_trans; [apply evolves_set_children | apply evolves_emit].
Qed.

Lemma extends_terminate configuration : extends (terminate ext configuration).
Proof.
  unfold terminate. apply extends_bind; [apply extends_hash | intros k].
  intros w. destruct (_ !! _); [|apply evolves_refl].
  revert w. unfold Logger.trace.
  apply extends_bind; [apply extends_postMessage | intros _].
  apply extends_bind; [apply extends_dispose | intros _].
  apply extends_bind; [apply extends_modify | intros _].
  { intros w. apply evolves_set_map. }
  apply extends_modify, evolves_close.
Qed.

Lemma extends_onReceivePort port configuration environment :
  extends (onReceivePort ext port configuration environment).
Proof.
  unfold onReceivePort, Logger.trace, Logger.error.
  apply extends_bind; [apply extends_postMessage | intros _].
  apply extends_tryCatch; [|intros e; apply extends_postMessage].
  apply extends_bind; [apply extends_terminate | intros _].
  apply extends_bind; [|intros this].
  { intros w. apply evolves_new. }
  apply extends_bind; [apply extends_spawn | intros _].
  apply extends_bind; [apply extends_hash | intros k].
  apply extends_bind; [apply extends_modify | intros _].
  { intros w. apply evolves_set_map. }
  apply extends_bind; [apply extends_postMessage | intros _].
  apply extends_postMessage.
Qed.

Lemma extends_notifyMessage message transfer :
  extends (notifyMessage ext message transfer).
Proof.
  unfold notifyMessage, onTerminate, Logger.warn.
  destruct (bool_decide (msg_id message = _)).
  - destruct (head transfer) as [[port|]|]; try apply extends_ret.
    destruct (msg_environment message); try apply extends_ret.
    apply extends_onReceivePort.
  - destruct (bool_decide (msg_id message = _)).
    + apply extends_terminate.
    + apply extends_postMessage.
Qed.

Lemma extends_onError this error : extends (onError ext this error).
Proof. apply extends_postMessage. Qed.

Lemma extends_onExit this code signal : extends (onExit this code signal).
Proof.
  unfold onExit. apply extends_bind; [apply extends_getProcess | intros p].
  destruct (isDisposed p); [apply extends_ret|].
  destruct (_ && _); [apply extends_postMessage | apply extends_ret].
Qed.

Lemma extends_onRawMessage this msg : extends (onRawMessage ext this msg).
Proof.
  unfold onRawMessage. apply extends_bind; [apply extends_getProcess | intros p].
  destruct (isDisposed p); [apply extends_ret|].
  destruct (isRemoteConsoleLog ext msg); apply extends_modify; intros w; apply evolves_emit.
Qed.

Lemma extends_send this buffer : extends (send ext this buffer).
Proof.
  unfold send. apply extends_bind; [apply extends_getProcess | intros p].
  destruct (isDisposed p); [apply extends_ret|].
  intros w. destruct (child_connected w p).
  - destruct (child p); [apply evolves_emit | apply evolves_refl].
  - apply evolves_emit.
Qed.

Lemma extends_handle e : extends (handle ext e).
Proof.
  destruct e; simpl.
  - apply extends_bind; [|intros c; apply extends_notifyMessage].
    intros w. apply evolves_set_replyHeap.
  - intros w. unfold withListener. destruct (_ ≫= _); [apply extends_onError | apply evolves_refl].
  - intros w. unfold withListener. destruct (_ ≫= _); [apply extends_onExit | apply evolves_refl].
  - intros w. unfold withListener. destruct (_ ≫= _); [apply extends_onRawMessage | apply evolves_refl].
  - apply extends_modify. intros w. apply evolves_set_children.
  - intros w. destruct (_ !! _); [apply extends_send | apply evolves_refl].
Qed.

Lemma evolves_run es w : evolves w (run ext es w).
Proof.
  revert w. induction es as [|e es IH]; intros w; simpl.
  - apply evolves_refl.
  - eapply evolves_trans; [apply (extends_handle e w) | apply IH].
Qed.

(** ** The listeners of a controller *)

Lemma getProcess_run this w p :
  processes w !! this = Some p → getProcess this w = (Normal p, w).
Proof. intros H. unfold getProcess. now rewrite H. Qed.

(** C6: an exit seen by a controller that is not disposed is reported, by
    one Error message naming the code and the signal, exactly when the code
    is not 0 and the signal is not SIGTERM; a clean exit is not reported;
    an exit seen after disposal is ignored. *)
Theorem exit_reported_only_as_crash (this : nat) (code : option Z)
    (signal : option string) (w : World) (p : SharedProcessWorkerProcess) :
  processes w !! this = Some p →
  (isDisposed p = false → code ≠ Some 0%Z → signal ≠ Some "SIGTERM" →
     onExit this code signal w =
       (Normal tt,
        emit (error_message ("Child process crashed with exit code "
                             +:+ show_code code +:+ " and signal "
                             +:+ show_signal signal)) w))
  ∧ (isDisposed p = false → code = Some 0%Z ∨ signal = Some "SIGTERM" →
     onExit this code signal w = (Normal tt, w))
  ∧ (isDisposed p = true → onExit this code signal w = (Normal tt, w)).
Proof.
  intros Hp. unfold onExit, bind. rewrite (getProcess_run _ _ _ Hp).
  repeat split.
  - intros -> Hc Hs. rewrite !bool_decide_eq_false_2 by done. reflexivity.
  - intros -> [Hc|Hs].
    + rewrite (bool_decide_eq_true_2 _ Hc). reflexivity.
    + rewrite (bool_decide_eq_true_2 _ Hs). now rewrite andb_false_r.
  - intros ->. reflexivity.
Qed.

(** C7: a buffer that arrives while the controller is not disposed and the
    child is not connected is dropped: [send] returns normally, and all it
    does is post one Warn message. *)
Theorem send_to_disconnected_child_warns (this : nat) (buffer : list Byte.byte)
    (w : World) (p : SharedProcessWorkerProcess) :
  processes w !! this = Some p →
  isDisposed p = false →
  child_connected w p = false →
  send ext this buffer w =
    (Normal tt, emit (warn_message "Unable to deliver message to disconnected child") w).
Proof.
  intros Hp Hd Hc. unfold send, bind. rewrite (getProcess_run _ _ _ Hp), Hd, Hc.
  reflexivity.
Qed.

Lemma send_to_connected_child this buffer w p c :
  processes w !! this = Some p →
  isDisposed p = false →
  child p = Some c →
  child_connected w p = true →
  send ext this buffer w = (Normal tt, emit (ChildSend c (toBase64 ext buffer)) w).
Proof.
  intros Hp Hd Hc Hconn. unfold send, bind.
  rewrite (getProcess_run _ _ _ Hp), Hd, Hconn, Hc. reflexivity.
Qed.

(** The reactor hands a child's exit event and a port's message event to
    the listeners that [spawn] registered. *)
Lemma handle_ChildExit pid this code signal w :
  children w !! pid ≫= listeners = Some this →
  handle ext (ChildExit pid code signal) w = onExit this code signal w.
Proof. intros H. cbn. unfold withListener. now rewrite H. Qed.

Lemma handle_PortMessage port this data w :
  portOnmessage w !! port = Some this →
  handle ext (PortMessage port data) w = send ext this data w.
Proof. intros H. cbn. now rewrite H. Qed.

Lemma disposed_lookup w this :
  disposed w this = true →
  ∃ p, processes w !! this = Some p ∧ isDisposed p = true.
Proof. unfold disposed. destruct (_ !! _) as [p|]; [eauto | discriminate]. Qed.

Lemma dispose_run this w p :
  processes w !! this = Some p →
  dispose this w = (Normal tt, after_dispose this (child p) w).
Proof.
  intros Hp. unfold dispose, bind, modify, after_dispose, getProcess. simpl.
  rewrite list_lookup_alter_eq, Hp. simpl. destruct (child p); reflexivity.
Qed.

Lemma disposed_after_dispose this c w p :
  processes w !! this = Some p → disposed (after_dispose this c w) this = true.
Proof.
  intros Hp. unfold disposed, after_dispose.
  destruct c; simpl; rewrite list_lookup_alter_eq, Hp; reflexivity.
Qed.

(** What does hold after disposal: once [dispose] has run on a controller,
    then whatever the worker handles afterwards, the relay callbacks and the
    exit listener of that controller return at their first test and leave
    the store as it is.  The error listener is the one callback of [spawn]
    without that test: it posts its Warn message all the same. *)
Lemma relay_and_exit_silent_after_dispose (this : nat) (w : World)
    (p : SharedProcessWorkerProcess) (es : list Event) :
  processes w !! this = Some p →
  let w' := run ext es (snd (dispose this w)) in
  (∀ buffer, send ext this buffer w' = (Normal tt, w'))
  ∧ (∀ msg, onRawMessage ext this msg w' = (Normal tt, w'))
  ∧ (∀ code signal, onExit this code signal w' = (Normal tt, w'))
  ∧ (∀ error, onError ext this error w' =
       (Normal tt,
        emit (warn_message ("Error from child process: " +:+ toErrorMessage ext error)) w')).
Proof.
  intros Hp w'.
  assert (Hd : disposed w' this = true).
  { apply (ev_disposed _ _ (evolves_run es _)).
    rewrite (dispose_run _ _ _ Hp). simpl. now apply (disposed_after_dispose _ _ _ p). }
  destruct (disposed_lookup _ _ Hd) as (p' & Hp' & Hdis).
  repeat split; intros.
  - unfold send, bind. now rewrite (getProcess_run _ _ _ Hp'), Hdis.
  - unfold onRawMessage, bind. now rewrite (getProcess_run _ _ _ Hp'), Hdis.
  - unfold onExit, bind. now rewrite (getProcess_run _ _ _ Hp'), Hdis.
Qed.

(** ** [notifyMessage] *)

(** C8, as the code has it: a message of an unrecognized kind is answered
    by one Warn message and nothing else; a ReceivePort message without a
    transferred [MessagePort], or without an environment, is dropped
    without any message and without any change of the store. *)
Theorem malformed_message_changes_nothing (message : ISharedProcessToWorkerMessage)
    (transfer : list Transferable) (w : World) :
  (msg_id message ≠ SharedProcessWorkerMessages.ReceivePort →
   msg_id message ≠ SharedProcessWorkerMessages.WorkerTerminate →
   notifyMessage ext message transfer w =
     (Normal tt, emit (warn_message "Unexpected message '[object Object]'") w))
  ∧ (msg_id message = SharedProcessWorkerMessages.ReceivePort →
     (∀ port, head transfer ≠ Some (MessagePort port)) ∨ msg_environment message = None →
     notifyMessage ext message transfer w = (Normal tt, w)).
Proof.
  unfold notifyMessage. split.
  - intros H1 H2. rewrite !bool_decide_eq_false_2 by done. reflexivity.
  - intros H1 H2. rewrite (bool_decide_eq_true_2 _ H1).
    destruct H2 as [Hport|Henv].
    + destruct (head transfer) as [[port|]|]; try reflexivity.
      now destruct (Hport port).
    + rewrite Henv. now destruct (head transfer) as [[port|]|].
Qed.

(** ** [terminate] *)

Lemma key_of_Some configuration w k :
  key_of ext w configuration = Some k →
  ∃ r, replyHeap w !! reply configuration = Some r
       ∧ k = hashObject ext (mkConfigurationValue (process configuration) (blank_nonce r)).
Proof.
  unfold key_of. destruct (_ !! _) as [r|]; [|discriminate].
  intros [= <-]. eauto.
Qed.

Lemma terminate_absent configuration w k r :
  replyHeap w !! reply configuration = Some r →
  k = hashObject ext (mkConfigurationValue (process configuration) (blank_nonce r)) →
  mapConfigurationToProcess w !! k = None →
  terminate ext configuration w =
    (Normal tt, set_replyHeap <[reply configuration := blank_nonce r]> w).
Proof.
  intros Hr -> Hm. unfold terminate, bind. rewrite (hash_run _ _ _ Hr).
  simpl. now rewrite Hm.
Qed.

Lemma terminate_present configuration w k r this p :
  replyHeap w !! reply configuration = Some r →
  k = hashObject ext (mkConfigurationValue (process configuration) (blank_nonce r)) →
  mapConfigurationToProcess w !! k = Some this →
  processes w !! this = Some p →
  terminate ext configuration w =
    (Normal tt,
     emit Close
       (set_closed true
          (set_map (delete k)
             (after_dispose this (child p)
                (emit (trace_message "Terminating worker process")
                   (set_replyHeap <[reply configuration := blank_nonce r]> w)))))).
Proof.
  intros Hr -> Hm Hp. unfold terminate, bind at 1. rewrite (hash_run _ _ _ Hr).
  simpl. rewrite Hm. unfold Logger.trace, postMessage, bind, modify, close. simpl.
  erewrite dispose_run by (simpl; exact Hp). reflexivity.
Qed.

(** C9: a terminate request for a configuration whose key has no
    registered controller returns normally, posts nothing, and leaves the
    registry, the controllers and the children as they were.  (The store
    differs from the old one only in the [reply] object handed in, which
    [hash] blanks.) *)
Theorem terminate_unregistered_is_silent
    (configuration : ISharedProcessWorkerConfiguration) (w : World) (k : Z) :
  key_of ext w configuration = Some k →
  mapConfigurationToProcess w !! k = None →
  ∃ w', terminate ext configuration w = (Normal tt, w')
        ∧ (∀ environment transfer,
             notifyMessage ext
               (mkToWorker SharedProcessWorkerMessages.WorkerTerminate
                           configuration environment) transfer w = (Normal tt, w'))
        ∧ effects w' = effects w
        ∧ mapConfigurationToProcess w' = mapConfigurationToProcess w
        ∧ processes w' = processes w
        ∧ children w' = children w
        ∧ portOnmessage w' = portOnmessage w
        ∧ closed w' = closed w.
Proof.
  intros Hk Hm. destruct (key_of_Some _ _ _ Hk) as (r & Hr & Hkr).
  eexists. split; [apply (terminate_absent _ _ _ _ Hr Hkr Hm)|].
  split; [|repeat split].
  intros environment transfer. unfold notifyMessage, onTerminate. simpl.
  apply (terminate_absent _ _ _ _ Hr Hkr Hm).
Qed.

Lemma onReceivePort_after_terminate port configuration environment w w1 :
  terminate ext configuration
    (emit (trace_message "Received the message port and configuration") w)
  = (Normal tt, w1) →
  evolves w1 (snd (onReceivePort ext port configuration environment w)).
Proof.
  intros Ht. unfold onReceivePort.
  match goal with
  | |- context [tryCatch (bind _ ?k) ?h] => set (rest := k); set (handler := h)
  end.
  assert (Hrest : extends (rest tt)).
  { subst rest. unfold Logger.trace.
    apply extends_bind; [|intros this].
    { intros w0. apply evolves_new. }
    apply extends_bind; [apply extends_spawn | intros _].
    apply extends_bind; [apply extends_hash | intros k].
    apply extends_bind; [apply extends_modify | intros _].
    { intros w0. apply evolves_set_map. }
    apply extends_bind; [apply extends_postMessage | intros _].
    apply extends_postMessage. }
  assert (Hhandler : ∀ e, extends (handler e)).
  { intros e. apply extends_postMessage. }
  unfold bind at 1, Logger.trace at 1, postMessage at 1, modify at 1.
  unfold tryCatch, bind at 1. fold (trace_message "Received the message port and configuration").
  rewrite Ht. specialize (Hrest w1).
  destruct (rest tt w1) as [[[]|e] w2]; simpl in *; auto.
  eapply evolves_trans; [exact Hrest | apply Hhandler].
Qed.

(** C10: whenever [terminate] finds a controller registered under the key
    of the configuration, it posts its trace, disposes the controller,
    deletes the entry and calls [close()], whatever else the registry
    holds.  This is so for a Terminate message, and also for the
    [terminate] that a ReceivePort handoff runs first: that handler goes on
    in a worker scope on which [close()] has been called. *)
Theorem terminate_registered_always_closes
    (configuration : ISharedProcessWorkerConfiguration) (w : World) (k : Z)
    (this : nat) (p : SharedProcessWorkerProcess) :
  key_of ext w configuration = Some k →
  mapConfigurationToProcess w !! k = Some this →
  processes w !! this = Some p →
  ∃ w', terminate ext configuration w = (Normal tt, w')
        ∧ effects w' = (effects w ++ [trace_message "Terminating worker process"]
                        ++ kill_effects (child p) ++ [Close])%list
        ∧ closed w' = true
        ∧ disposed w' this = true
        ∧ mapConfigurationToProcess w' = delete k (mapConfigurationToProcess w)
        ∧ (∀ environment transfer,
             notifyMessage ext
               (mkToWorker SharedProcessWorkerMessages.WorkerTerminate
                           configuration environment) transfer w = (Normal tt, w'))
        ∧ (∀ port environment,
             let w2 := snd (onReceivePort ext port configuration environment w) in
             closed w2 = true
             ∧ (effects w
                ++ [trace_message "Received the message port and configuration";
                    trace_message "Terminating worker process"]
                ++ kill_effects (child p) ++ [Close])%list `prefix_of` effects w2).
Proof.
  intros Hk Hm Hp. destruct (key_of_Some _ _ _ Hk) as (r & Hr & Hkr).
  eexists. split; [apply (terminate_present _ _ _ _ _ _ Hr Hkr Hm Hp)|].
  split; [|split; [|split; [|split; [|split]]]].
  - destruct (child p); simpl; rewrite <- ?app_assoc; reflexivity.
  - reflexivity.
  - unfold disposed. destruct (child p); simpl;
      rewrite list_lookup_alter_eq, Hp; reflexivity.
  - destruct (child p); reflexivity.
  - intros environment transfer. unfold notifyMessage, onTerminate. simpl.
    apply (terminate_present _ _ _ _ _ _ Hr Hkr Hm Hp).
  - intros port environment w2.
    pose proof (onReceivePort_after_terminate port configuration environment w _
                  (terminate_present configuration
                     (emit (trace_message "Received the message port and configuration") w)
                     k r this p Hr Hkr Hm Hp)) as Hev.
    fold w2 in Hev. split.
    + apply (ev_closed _ _ Hev). reflexivity.
    + etransitivity; [|apply (ev_effects _ _ Hev)].
      destruct (child p); simpl; rewrite <- ?app_assoc; reflexivity.
Qed.

(** ** [spawn] and [onReceivePort] *)

Lemma spawn_throws this w p e :
  processes w !! this = Some p →
  fork_outcome ext p (length (children w)) = Some e →
  spawn ext this w = (Thrown e, emit (trace_message "Forking worker process") w).
Proof.
  intros Hp Hf. unfold spawn, bind, Logger.trace, postMessage, modify, getProcess, fork.
  unfold fork_outcome in Hf. cbn. rewrite Hp. cbn. now rewrite Hf.
Qed.

Lemma spawn_ok this w p :
  processes w !! this = Some p →
  fork_outcome ext p (length (children w)) = None →
  spawn ext this w = (Normal tt, after_spawn ext this p w).
Proof.
  intros Hp Hf.
  unfold spawn, bind, Logger.trace, postMessage, modify, getProcess, fork, attachListeners.
  unfold fork_outcome in Hf. cbn. rewrite Hp. cbn. now rewrite Hf.
Qed.

Lemma lookup_snoc {A} (l : list A) (x : A) : (l ++ [x])%list !! length l = Some x.
Proof. now apply list_lookup_middle. Qed.

Lemma alter_snoc {A} (f : A → A) (l : list A) (x : A) :
  alter f (length l) (l ++ [x])%list = (l ++ [f x])%list.
Proof.
  replace (length l) with (length l + 0) by lia. now rewrite alter_app_r.
Qed.

(** The handoff after its [terminate] returned, when [fork] throws. *)
Lemma onReceivePort_fork_throws port configuration environment w w1 e :
  terminate ext configuration
    (emit (trace_message "Received the message port and configuration") w)
  = (Normal tt, w1) →
  fork_outcome ext (fresh_controller port configuration environment)
               (length (children w1)) = Some e →
  onReceivePort ext port configuration environment w =
    (Normal tt,
     emit (error_message ("Unexpected error forking worker process: "
                          +:+ toErrorMessage ext e))
       (emit (trace_message "Forking worker process")
          (set_processes
             (fun ps => (ps ++ [fresh_controller port configuration environment])%list)
             w1))).
Proof.
  intros Ht Hf. unfold onReceivePort.
  unfold bind at 1, Logger.trace at 1, postMessage at 1, modify at 1.
  unfold tryCatch, bind at 1.
  fold (trace_message "Received the message port and configuration").
  rewrite Ht. unfold bind at 1, newSharedProcessWorkerProcess.
  unfold bind at 1.
  erewrite spawn_throws; [reflexivity | apply lookup_snoc | exact Hf].
Qed.

(** The handoff after its [terminate] returned, when [fork] succeeds. *)
Lemma onReceivePort_fork_ok port configuration environment w w1 r :
  terminate ext configuration
    (emit (trace_message "Received the message port and configuration") w)
  = (Normal tt, w1) →
  replyHeap w1 !! reply configuration = Some r →
  fork_outcome ext (fresh_controller port configuration environment)
               (length (children w1)) = None →
  onReceivePort ext port configuration environment w =
    (Normal tt,
     emit ready_message
       (emit (trace_message "Worker is ready")
          (set_map <[hashObject ext (mkConfigurationValue (process configuration)
                                       (blank_nonce r)) := length (processes w1)]>
             (set_replyHeap <[reply configuration := blank_nonce r]>
                (after_spawn ext (length (processes w1))
                   (fresh_controller port configuration environment)
                   (set_processes
                      (fun ps => (ps ++ [fresh_controller port configuration environment])%list)
                      w1)))))).
Proof.
  intros Ht Hr Hf. unfold onReceivePort.
  unfold bind at 1, Logger.trace at 1, postMessage at 1, modify at 1.
  unfold tryCatch, bind at 1.
  fold (trace_message "Received the message port and configuration").
  rewrite Ht. unfold bind at 1, newSharedProcessWorkerProcess.
  unfold bind at 1.
  erewrite spawn_ok; [| apply lookup_snoc | exact Hf].
  unfold bind at 1. erewrite hash_run by exact Hr.
  reflexivity.
Qed.

(** C2: when the [fork] of a handoff throws, [onReceivePort] still returns
    normally; the key of the configuration is left without an entry; among
    the messages the handler posted there is exactly one Error message (the
    last one posted, carrying the error's text) and no WorkerReady. *)
Theorem spawn_failure_leaves_slot_empty (port : nat)
    (configuration : ISharedProcessWorkerConfiguration)
    (environment : ISharedProcessWorkerEnvironment) (w : World) (k : Z) (e : string) :
  key_of ext w configuration = Some k →
  (∀ this, mapConfigurationToProcess w !! k = Some this →
           is_Some (processes w !! this)) →
  fork_outcome ext (fresh_controller port configuration environment)
               (length (children w)) = Some e →
  ∃ w' new,
    onReceivePort ext port configuration environment w = (Normal tt, w')
    ∧ mapConfigurationToProcess w' !! k = None
    ∧ key_of ext w' configuration = Some k
    ∧ effects w' = (effects w ++ new)%list
    ∧ last new = Some (error_message ("Unexpected error forking worker process: "
                                      +:+ toErrorMessage ext e))
    ∧ count_posted SharedProcessWorkerMessages.WorkerError new = 1
    ∧ count_posted SharedProcessWorkerMessages.WorkerReady new = 0.
Proof.
  intros Hk Hvalid Hf. destruct (key_of_Some _ _ _ Hk) as (r & Hr & Hkr).
  assert (Hkb : hashObject ext (mkConfigurationValue (process configuration)
                                  (blank_nonce (blank_nonce r))) = k).
  { now subst k. }
  destruct (mapConfigurationToProcess w !! k) as [this|] eqn:Hm.
  - destruct (Hvalid this eq_refl) as [p Hp].
    pose proof (terminate_present configuration
                  (emit (trace_message "Received the message port and configuration") w)
                  k r this p Hr Hkr Hm Hp) as Ht.
    eexists. exists ([trace_message "Received the message port and configuration";
                      trace_message "Terminating worker process"]
                     ++ kill_effects (child p)
                     ++ [Close; trace_message "Forking worker process";
                         error_message ("Unexpected error forking worker process: "
                                        +:+ toErrorMessage ext e)])%list.
    split.
    { eapply onReceivePort_fork_throws; [exact Ht|].
      destruct (child p); cbn; rewrite ?length_alter; exact Hf. }
    split; [destruct (child p); cbn; apply lookup_delete_eq|].
    split.
    { unfold key_of. destruct (child p); cbn; rewrite lookup_insert_eq; cbn;
        now rewrite Hkb. }
    split; [destruct (child p); cbn; rewrite <- ?app_assoc; reflexivity|].
    destruct (child p); repeat split; reflexivity.
  - pose proof (terminate_absent configuration
                  (emit (trace_message "Received the message port and configuration") w)
                  k r Hr Hkr Hm) as Ht.
    eexists. exists [trace_message "Received the message port and configuration";
                     trace_message "Forking worker process";
                     error_message ("Unexpected error forking worker process: "
                                    +:+ toErrorMessage ext e)].
    split; [eapply onReceivePort_fork_throws; [exact Ht | exact Hf]|].
    split; [exact Hm|].
    split.
    { unfold key_of. cbn. rewrite lookup_insert_eq. cbn. now rewrite Hkb. }
    split; [cbn; rewrite <- ?app_assoc; reflexivity|].
    repeat split; reflexivity.
Qed.

(** ** The registry invariant *)

Lemma live_true w this :
  live w this = true ↔
  ∃ p c, processes w !! this = Some p ∧ child p = Some c ∧ isDisposed p = false.
Proof.
  unfold live. split.
  - destruct (processes w !! this) as [p|]; [|discriminate].
    intros [Hc Hd]%andb_true_iff. apply bool_decide_eq_true in Hc as [c Hc].
    exists p, c. repeat split; auto. now destruct (isDisposed p).
  - intros (p & c & -> & Hc & Hd). rewrite Hc, Hd. reflexivity.
Qed.

Lemma same_registry_ok w w' :
  replyHeap w' = replyHeap w →
  processes w' = processes w →
  mapConfigurationToProcess w' = mapConfigurationToProcess w →
  registry_ok ext w → registry_ok ext w'.
Proof.
  intros Hh Hp Hm [H1 H2 H3].
  split; unfold live, fingerprint_of, key_of in *; rewrite ?Hh, ?Hp, ?Hm; auto.
Qed.

Lemma registry_ok_create : registry_ok ext create.
Proof.
  split; unfold live; cbn.
  - intros this p H. now rewrite lookup_nil in H.
  - intros this. now rewrite lookup_nil.
  - intros k this H. now rewrite lookup_empty in H.
Qed.

(** Writing a [reply] object whose blanked form is unchanged, or allocating
    a new one, moves no key. *)
Lemma registry_ok_heap f w :
  (∀ l r, replyHeap w !! l = Some r →
          ∃ r', f (replyHeap w) !! l = Some r' ∧ blank_nonce r' = blank_nonce r) →
  registry_ok ext w → registry_ok ext (set_replyHeap f w).
Proof.
  intros Hf [H1 H2 H3].
  assert (Hkey : ∀ this p, processes w !! this = Some p →
            key_of ext (set_replyHeap f w) (configuration p)
            = key_of ext w (configuration p)).
  { intros this p Hp. destruct (H1 _ _ Hp) as [r Hr].
    destruct (Hf _ _ Hr) as (r' & Hr' & Hb).
    unfold key_of. cbn. rewrite Hr, Hr'. cbn. now rewrite Hb. }
  assert (Hfp : ∀ this, fingerprint_of ext (set_replyHeap f w) this
                        = fingerprint_of ext w this).
  { intros this. unfold fingerprint_of. cbn.
    destruct (processes w !! this) as [p|] eqn:Hp; cbn; eauto. }
  split.
  - intros this p Hp. cbn in Hp. destruct (H1 _ _ Hp) as [r Hr].
    destruct (Hf _ _ Hr) as (r' & Hr' & _). cbn. eauto.
  - intros this Hl. rewrite Hfp. apply H2, Hl.
  - intros k this Hm. rewrite Hfp. apply H3, Hm.
Qed.

Lemma blank_write_agrees (h : gmap nat Reply) l0 r0 :
  h !! l0 = Some r0 →
  ∀ l r, h !! l = Some r →
         ∃ r', <[l0 := blank_nonce r0]> h !! l = Some r' ∧ blank_nonce r' = blank_nonce r.
Proof.
  intros H0 l r Hl. destruct (decide (l0 = l)) as [->|Hne].
  - rewrite lookup_insert_eq. eexists; split; eauto.
    rewrite H0 in Hl. now injection Hl as ->.
  - rewrite lookup_insert_ne by done. eauto.
Qed.

Lemma fresh_write_agrees (h : gmap nat Reply) r0 :
  ∀ l r, h !! l = Some r →
         ∃ r', <[fresh (dom h) := r0]> h !! l = Some r' ∧ blank_nonce r' = blank_nonce r.
Proof.
  intros l r Hl. destruct (decide (fresh (dom h) = l)) as [E|Hne].
  - exfalso. apply (is_fresh (dom h)). rewrite E. apply elem_of_dom. eauto.
  - rewrite lookup_insert_ne by done. eauto.
Qed.

(** Disposing the registered controller of a key and deleting the entry. *)
Lemma registry_ok_remove w k this :
  registry_ok ext w →
  mapConfigurationToProcess w !! k = Some this →
  registry_ok ext
    (set_map (delete k) (set_processes (alter (set_isDisposed true) this) w)).
Proof.
  intros [H1 H2 H3] Hm.
  destruct (H3 _ _ Hm) as [Hlive Hfp].
  assert (Hcfg : ∀ a, fingerprint_of ext
             (set_map (delete k) (set_processes (alter (set_isDisposed true) this) w)) a
             = fingerprint_of ext w a).
  { intros a. unfold fingerprint_of, key_of. cbn.
    rewrite list_lookup_alter. case_decide; [subst a|reflexivity].
    destruct (processes w !! this); reflexivity. }
  assert (Hl : ∀ a, live
             (set_map (delete k) (set_processes (alter (set_isDisposed true) this) w)) a
             = if decide (a = this) then false else live w a).
  { intros a. unfold live. cbn. rewrite list_lookup_alter.
    destruct (decide (this = a)) as [->|Hne].
    - rewrite decide_True by done.
      destruct (processes w !! a); cbn; [apply andb_false_r|reflexivity].
    - rewrite decide_False by congruence. reflexivity. }
  split.
  - intros a p. cbn. rewrite list_lookup_alter. case_decide.
    + subst a. destruct (processes w !! this) as [q|] eqn:Hq; [|discriminate].
      intros [= <-]. cbn. eauto.
    + intros Hp. eauto.
  - intros a. rewrite Hl, Hcfg. case_decide; [discriminate|].
    intros Ha. destruct (H2 _ Ha) as (ka & Hka & Hma).
    exists ka. split; [exact Hka|]. cbn.
    rewrite lookup_delete_ne; [exact Hma|].
    intros <-. rewrite Hm in Hma. congruence.
  - intros k' a. cbn. rewrite lookup_delete. case_decide; [discriminate|].
    intros Hma. destruct (H3 _ _ Hma) as [Ha Hfa].
    rewrite Hl, Hcfg. split; [|exact Hfa].
    rewrite decide_False; [exact Ha|].
    intros ->. rewrite Hfp in Hfa. congruence.
Qed.

(** Constructing a controller: it is not live yet. *)
Lemma registry_ok_new w p :
  registry_ok ext w →
  is_Some (replyHeap w !! reply (configuration p)) →
  child p = None →
  registry_ok ext (set_processes (fun ps => (ps ++ [p])%list) w).
Proof.
  intros [H1 H2 H3] Hr Hc.
  assert (Hold : ∀ a q, processes w !! a = Some q →
                        (processes w ++ [p])%list !! a = Some q).
  { intros a q Hq. now apply lookup_app_l_Some. }
  assert (Hnew : ∀ a q, (processes w ++ [p])%list !! a = Some q →
                        processes w !! a = Some q ∨ q = p).
  { intros a q Hq. apply lookup_app_Some in Hq as [Hq|[_ Hq]]; [now left|right].
    apply list_lookup_singleton_Some in Hq as [_ Hq]. congruence. }
  split.
  - intros a q Hq. cbn in *. apply Hnew in Hq as [Hq| ->]; eauto.
  - intros a Ha. apply live_true in Ha as (q & c & Hq & Hcq & Hd). cbn in Hq.
    apply Hnew in Hq as [Hq| ->]; [|congruence].
    destruct (H2 a) as (ka & Hka & Hma).
    { apply live_true. eauto. }
    exists ka. split; [|exact Hma].
    unfold fingerprint_of in *. cbn. rewrite (Hold _ _ Hq). now rewrite Hq in Hka.
  - intros k a Hm. cbn in Hm. destruct (H3 _ _ Hm) as [Ha Hfa].
    apply live_true in Ha as (q & c & Hq & Hcq & Hd). split.
    + apply live_true. exists q, c. cbn. eauto.
    + unfold fingerprint_of in *. cbn. rewrite (Hold _ _ Hq). now rewrite Hq in Hfa.
Qed.

(** Filing a newly spawned controller under a key that has no entry. *)
Lemma registry_ok_register w p c k :
  registry_ok ext w →
  key_of ext w (configuration p) = Some k →
  mapConfigurationToProcess w !! k = None →
  child p = Some c →
  isDisposed p = false →
  registry_ok ext
    (set_map <[k := length (processes w)]>
       (set_processes (fun ps => (ps ++ [p])%list) w)).
Proof.
  intros [H1 H2 H3] Hk Hm Hc Hd.
  assert (Hold : ∀ a q, processes w !! a = Some q →
                        (processes w ++ [p])%list !! a = Some q).
  { intros a q Hq. now apply lookup_app_l_Some. }
  assert (Hnew : ∀ a q, (processes w ++ [p])%list !! a = Some q →
                        processes w !! a = Some q ∨ (a = length (processes w) ∧ q = p)).
  { intros a q Hq. apply lookup_app_Some in Hq as [Hq|[Hge Hq]]; [now left|right].
    apply list_lookup_singleton_Some in Hq as [Hz Hq]. split; [lia|congruence]. }
  assert (Hlen : ∀ a q, processes w !! a = Some q → a ≠ length (processes w)).
  { intros a q Hq%lookup_lt_Some. lia. }
  split.
  - intros a q Hq. cbn in *. apply Hnew in Hq as [Hq|[_ ->]]; eauto.
    destruct (key_of_Some _ _ _ Hk) as (r & Hr & _). eauto.
  - intros a Ha. apply live_true in Ha as (q & c' & Hq & Hcq & Hdq). cbn in Hq.
    apply Hnew in Hq as [Hq|[-> ->]].
    + destruct (H2 a) as (ka & Hka & Hma).
      { apply live_true. eauto. }
      exists ka. split.
      * unfold fingerprint_of in *. cbn. rewrite (Hold _ _ Hq). now rewrite Hq in Hka.
      * cbn. rewrite lookup_insert_ne; [exact Hma|]. congruence.
    + exists k. split.
      * unfold fingerprint_of. cbn. rewrite lookup_snoc. exact Hk.
      * cbn. apply lookup_insert_eq.
  - intros k' a. cbn. rewrite lookup_insert. case_decide.
    + subst k'. intros [= <-]. split.
      * apply live_true. exists p, c. cbn. rewrite lookup_snoc. eauto.
      * unfold fingerprint_of. cbn. rewrite lookup_snoc. exact Hk.
    + intros Hma. destruct (H3 _ _ Hma) as [Ha Hfa].
      apply live_true in Ha as (q & c' & Hq & Hcq & Hdq). split.
      * apply live_true. exists q, c'. cbn. eauto.
      * unfold fingerprint_of in *. cbn. rewrite (Hold _ _ Hq). now rewrite Hq in Hfa.
Qed.

Lemma registry_ok_terminate configuration w r :
  registry_ok ext w →
  replyHeap w !! reply configuration = Some r →
  ∃ w1, terminate ext configuration w = (Normal tt, w1)
        ∧ registry_ok ext w1
        ∧ mapConfigurationToProcess w1
            !! hashObject ext (mkConfigurationValue (process configuration) (blank_nonce r))
          = None
        ∧ replyHeap w1 = <[reply configuration := blank_nonce r]> (replyHeap w)
        ∧ length (children w1) = length (children w)
        ∧ length (processes w1) = length (processes w).
Proof.
  intros Hok Hr.
  set (k := hashObject ext (mkConfigurationValue (process configuration) (blank_nonce r))).
  pose proof (registry_ok_heap <[reply configuration := blank_nonce r]> w
                (blank_write_agrees _ _ _ Hr) Hok) as Hok1.
  destruct (mapConfigurationToProcess w !! k) as [this|] eqn:Hm.
  - destruct (ok_registered _ _ Hok _ _ Hm) as [Hlive _].
    apply live_true in Hlive as (p & c & Hp & Hc & Hd).
    eexists. split; [apply (terminate_present _ _ k r this p Hr eq_refl Hm Hp)|].
    rewrite Hc. cbn. rewrite !length_alter. split; [|split; [apply lookup_delete_eq|done]].
    eapply same_registry_ok; [| | |apply (registry_ok_remove _ k this Hok1 Hm)];
      reflexivity.
  - eexists. split; [apply (terminate_absent _ _ k r Hr eq_refl Hm)|].
    cbn. split; [exact Hok1|]. split; [exact Hm|done].
Qed.

Lemma registry_ok_onReceivePort port configuration environment w r :
  registry_ok ext w →
  replyHeap w !! reply configuration = Some r →
  registry_ok ext (snd (onReceivePort ext port configuration environment w)).
Proof.
  intros Hok Hr.
  set (w0 := emit (trace_message "Received the message port and configuration") w).
  assert (Hok0 : registry_ok ext w0) by (eapply same_registry_ok; [| | |exact Hok]; done).
  destruct (registry_ok_terminate configuration w0 r Hok0 Hr)
    as (w1 & Ht & Hok1 & Hnone & Hheap & Hch & Hps).
  assert (Hr1 : replyHeap w1 !! reply configuration = Some (blank_nonce r)).
  { rewrite Hheap. apply lookup_insert_eq. }
  destruct (fork_outcome ext (fresh_controller port configuration environment)
                         (length (children w1))) as [e|] eqn:Hf.
  - rewrite (onReceivePort_fork_throws _ _ _ _ _ _ Ht Hf). cbn.
    eapply same_registry_ok;
      [| | |apply (registry_ok_new w1 (fresh_controller port configuration environment))];
      eauto.
  - rewrite (onReceivePort_fork_ok _ _ _ _ _ _ Ht Hr1 Hf). cbn.
    set (p := mkWorkerProcess port configuration environment
                              (Some (length (children w1))) false).
    set (wA := set_map <[hashObject ext (mkConfigurationValue (process configuration)
                                           (blank_nonce r)) := length (processes w1)]>
                 (set_processes (fun ps => (ps ++ [p])%list) w1)).
    assert (HokA : registry_ok ext wA).
    { apply (registry_ok_register w1 p (length (children w1))); auto.
      unfold key_of. cbn. now rewrite Hr1. }
    pose proof (registry_ok_heap <[reply configuration := blank_nonce (blank_nonce r)]> wA
                  (blank_write_agrees (replyHeap wA) _ _ Hr1) HokA) as HokB.
    eapply same_registry_ok; [| | |exact HokB]; cbn; [reflexivity| |reflexivity].
    now rewrite alter_snoc.
Qed.

Lemma registry_ok_notifyMessage message transfer w r :
  registry_ok ext w →
  replyHeap w !! reply (msg_configuration message) = Some r →
  registry_ok ext (snd (notifyMessage ext message transfer w)).
Proof.
  intros Hok Hr. unfold notifyMessage, onTerminate.
  destruct (bool_decide (msg_id message = _)).
  - destruct (head transfer) as [[port|]|]; try exact Hok.
    destruct (msg_environment message); try exact Hok.
    now apply (registry_ok_onReceivePort _ _ _ _ r).
  - destruct (bool_decide (msg_id message = _)).
    + destruct (registry_ok_terminate _ _ _ Hok Hr) as (w1 & -> & Hok1 & _). exact Hok1.
    + eapply same_registry_ok; [| | |exact Hok]; done.
Qed.

Lemma onExit_same_registry this code signal w :
  let w' := snd (onExit this code signal w) in
  replyHeap w' = replyHeap w ∧ processes w' = processes w
  ∧ mapConfigurationToProcess w' = mapConfigurationToProcess w.
Proof.
  unfold onExit, bind, getProcess. destruct (processes w !! this) as [p|]; [|done].
  destruct (isDisposed p); [done|]. now destruct (_ && _).
Qed.

Lemma onRawMessage_same_registry this msg w :
  let w' := snd (onRawMessage ext this msg w) in
  replyHeap w' = replyHeap w ∧ processes w' = processes w
  ∧ mapConfigurationToProcess w' = mapConfigurationToProcess w.
Proof.
  unfold onRawMessage, bind, getProcess. destruct (processes w !! this) as [p|]; [|done].
  destruct (isDisposed p); [done|]. now destruct (isRemoteConsoleLog ext msg).
Qed.

Lemma send_same_registry this buffer w :
  let w' := snd (send ext this buffer w) in
  replyHeap w' = replyHeap w ∧ processes w' = processes w
  ∧ mapConfigurationToProcess w' = mapConfigurationToProcess w.
Proof.
  unfold send, bind, getProcess. destruct (processes w !! this) as [p|]; [|done].
  destruct (isDisposed p); [done|]. destruct (child_connected w p); [|done].
  now destruct (child p).
Qed.

Lemma registry_ok_step w e : registry_ok ext w → registry_ok ext (step ext w e).
Proof.
  intros Hok. unfold step. destruct e; cbn.
  - unfold bind, receive.
    apply (registry_ok_notifyMessage _ _ _ (reply_value configuration0)).
    + apply registry_ok_heap; [apply fresh_write_agrees | exact Hok].
    + cbn. apply lookup_insert_eq.
  - unfold withListener. destruct (_ ≫= _); [|exact Hok].
    eapply same_registry_ok; [| | |exact Hok]; done.
  - unfold withListener. destruct (_ ≫= _) as [this|]; [|exact Hok].
    destruct (onExit_same_registry this code signal w) as (? & ? & ?).
    eapply same_registry_ok; [| | |exact Hok]; done.
  - unfold withListener. destruct (_ ≫= _) as [this|]; [|exact Hok].
    destruct (onRawMessage_same_registry this msg w) as (? & ? & ?).
    eapply same_registry_ok; [| | |exact Hok]; done.
  - eapply same_registry_ok; [| | |exact Hok]; done.
  - destruct (_ !! _) as [this|]; [|exact Hok].
    destruct (send_same_registry this data w) as (? & ? & ?).
    eapply same_registry_ok; [| | |exact Hok]; done.
Qed.

Lemma reachable_registry_ok w : reachable ext w → registry_ok ext w.
Proof.
  induction 1; [apply registry_ok_create | now apply registry_ok_step].
Qed.

Lemma live_unique w a b k :
  registry_ok ext w →
  live w a = true → live w b = true →
  fingerprint_of ext w a = Some k → fingerprint_of ext w b = Some k →
  a = b.
Proof.
  intros Hok Ha Hb Hka Hkb.
  destruct (ok_live _ _ Hok _ Ha) as (ka & Hka' & Hma).
  destruct (ok_live _ _ Hok _ Hb) as (kb & Hkb' & Hmb).
  congruence.
Qed.

(** C1: in every store the worker can reach, two live controllers never
    share a key.  And when a ReceivePort handoff arrives for a key that is
    already registered and its [fork] succeeds: the [terminate] that the
    handler runs first disposes the registered controller and deletes its
    entry while the new controller is neither constructed nor forked; in
    the log the kill of the old child comes before the fork of the new one;
    at the end the old controller is not live, and the new one is live and
    is the registry's entry under that key. *)
Theorem one_live_controller_per_fingerprint (w : World) :
  reachable ext w →
  (∀ a b k,
     live w a = true → live w b = true →
     fingerprint_of ext w a = Some k → fingerprint_of ext w b = Some k →
     a = b)
  ∧ (∀ (v : ConfigurationValue) (environment : ISharedProcessWorkerEnvironment)
       (port old : nat),
       let l := fresh (dom (replyHeap w)) in
       let configuration := mkConfiguration (process_value v) l in
       let k := hashObject ext (mkConfigurationValue (process_value v)
                                  (blank_nonce (reply_value v))) in
       let new := length (processes w) in
       let w' := step ext w (OnMessage SharedProcessWorkerMessages.ReceivePort v
                               (Some environment) [MessagePort port]) in
       mapConfigurationToProcess w !! k = Some old →
       fork_outcome ext (fresh_controller port configuration environment)
                    (length (children w)) = None →
       ∃ p c w1,
         processes w !! old = Some p ∧ child p = Some c ∧ isDisposed p = false
         ∧ terminate ext configuration
             (emit (trace_message "Received the message port and configuration")
                (set_replyHeap <[l := reply_value v]> w)) = (Normal tt, w1)
         ∧ disposed w1 old = true
         ∧ mapConfigurationToProcess w1 !! k = None
         ∧ length (processes w1) = length (processes w)
         ∧ length (children w1) = length (children w)
         ∧ effects w' =
             (effects w
              ++ [trace_message "Received the message port and configuration";
                  trace_message "Terminating worker process";
                  Kill c; Close;
                  trace_message "Forking worker process";
                  fork_effect ext (fresh_controller port configuration environment);
                  trace_message "Worker is ready";
                  ready_message])%list
         ∧ live w' old = false
         ∧ live w' new = true
         ∧ new ≠ old
         ∧ mapConfigurationToProcess w' !! k = Some new).
Proof.
  intros Hreach. pose proof (reachable_registry_ok _ Hreach) as Hok. split.
  { intros a b k. now apply live_unique. }
  intros v environment port old l configuration k new w' Hm Hf.
  destruct (ok_registered _ _ Hok _ _ Hm) as [Hlive _].
  apply live_true in Hlive as (p & c & Hp & Hc & Hd).
  set (wr := set_replyHeap <[l := reply_value v]> w).
  set (w0 := emit (trace_message "Received the message port and configuration") wr).
  assert (Hr : replyHeap w0 !! reply configuration = Some (reply_value v)).
  { cbn. apply lookup_insert_eq. }
  pose proof (terminate_present configuration w0 k (reply_value v) old p Hr eq_refl Hm Hp) as Ht.
  rewrite Hc in Ht.
  match type of Ht with _ = (_, ?x) => set (w1 := x) in * end.
  assert (Hr1 : replyHeap w1 !! reply configuration = Some (blank_nonce (reply_value v))).
  { cbn. apply lookup_insert_eq. }
  assert (Hf1 : fork_outcome ext (fresh_controller port configuration environment)
                         (length (children w1)) = None).
  { cbn. rewrite length_alter. exact Hf. }
  pose proof (onReceivePort_fork_ok port configuration environment wr w1 _ Ht Hr1 Hf1) as Hrun.
  assert (Hw' : w' = snd (onReceivePort ext port configuration environment wr)) by reflexivity.
  rewrite Hrun in Hw'. cbn [snd] in Hw'.
  exists p, c, w1.
  assert (Hlen : length (processes w1) = length (processes w)).
  { cbn. apply length_alter. }
  assert (Hps' : processes w' =
                 (processes w1
                  ++ [set_child (Some (length (children w1)))
                        (fresh_controller port configuration environment)])%list).
  { rewrite Hw'. cbn. now rewrite alter_snoc. }
  assert (Hold : processes w1 !! old = Some (set_isDisposed true p)).
  { cbn. now rewrite list_lookup_alter_eq, Hp. }
  repeat split; auto.
  - unfold disposed. now rewrite Hold.
  - cbn. apply lookup_delete_eq.
  - cbn. now rewrite length_alter.
  - rewrite Hw'. cbn. rewrite <- !app_assoc. reflexivity.
  - unfold live. rewrite Hps', (lookup_app_l_Some _ _ _ _ Hold). cbn.
    apply andb_false_r.
  - unfold live. rewrite Hps'. unfold new. rewrite <- Hlen, lookup_snoc. reflexivity.
  - apply lookup_lt_Some in Hp. unfold new. lia.
  - rewrite Hw'. cbn. unfold new. rewrite <- Hlen. apply lookup_insert_eq.
Qed.

End WorkerFacts.

(** C4, run on the configuration of the scenario with nonces "a" and "b". *)
Lemma hash_ignores_nonce_witness :
  ∃ k, fst (hash Sample.ext (mkConfiguration (mkProcess "m1" "t1") 0)
              (set_replyHeap (fun _ => {[ 0 := mkReply 1 "c" "a"; 1 := mkReply 1 "c" "b" ]})
                             emptyWorld)) = Normal k
     ∧ fst (hash Sample.ext (mkConfiguration (mkProcess "m1" "t1") 1)
              (set_replyHeap (fun _ => {[ 0 := mkReply 1 "c" "a"; 1 := mkReply 1 "c" "b" ]})
                             emptyWorld)) = Normal k
     ∧ fst (hash Sample.ext (mkConfiguration (mkProcess "m1" "t1") 1)
              (snd (hash Sample.ext (mkConfiguration (mkProcess "m1" "t1") 0)
                 (set_replyHeap (fun _ => {[ 0 := mkReply 1 "c" "a"; 1 := mkReply 1 "c" "b" ]})
                                emptyWorld)))) = Normal k.
Proof.
  apply (hash_ignores_nonce Sample.ext _ _ _ (mkReply 1 "c" "a") (mkReply 1 "c" "b"));
    reflexivity.
Defined.

(** C5: [hash] is not free of side effects.  The spread in its first line
    copies only the top-level object, so the write of [''] lands in the
    caller's [reply] object: a configuration that went in with nonce "a"
    comes out with the empty nonce. *)
Theorem hash_clears_the_callers_nonce :
  let configuration := mkConfiguration (mkProcess "m1" "t1") 0 in
  let w := set_replyHeap (fun _ => {[ 0 := mkReply 1 "c" "a" ]}) emptyWorld in
  nonce <$> replyHeap w !! reply configuration = Some "a"
  ∧ nonce <$> replyHeap (snd (hash Sample.ext configuration w)) !! reply configuration
    = Some "".
Proof. split; reflexivity. Qed.

(** * The scenarios of the specification, run on the sample host *)

Lemma reachable_run ext es w : reachable ext w → reachable ext (run ext es w).
Proof.
  revert w. induction es as [|e es IH]; intros w Hw; [exact Hw|].
  apply IH. now constructor.
Qed.

(** C1 on the scenario "handed off twice with nonces a then b": the second
    handoff leaves the first controller dead and the second one as the only
    entry of the registry. *)
Lemma one_live_controller_per_fingerprint_witness :
  let w := run Sample.ext [Sample.handoff (Sample.m1 "a") 7] create in
  let w' := step Sample.ext w (Sample.handoff (Sample.m1 "b") 8) in
  live w 0 = true
  ∧ live w' 0 = false
  ∧ live w' 1 = true
  ∧ mapConfigurationToProcess w' !! Sample.key1 = Some 1
  ∧ size (mapConfigurationToProcess w') = 1.
Proof.
  intros w w'.
  assert (Hreach : reachable Sample.ext w) by apply reachable_run, reachable_create.
  destruct (one_live_controller_per_fingerprint Sample.ext w Hreach) as [_ Hswap].
  destruct (Hswap (Sample.m1 "b") Sample.env 8 0)
    as (p & c & w1 & _ & _ & _ & _ & _ & _ & _ & _ & _ & Hold & Hnew & _ & Hentry).
  - vm_compute. reflexivity.
  - reflexivity.
  - split; [vm_compute; reflexivity|].
    split; [exact Hold|]. split; [exact Hnew|]. split; [exact Hentry|].
    vm_compute. reflexivity.
Defined.

(** C2 on a host whose second [fork] throws: the retry kills the first
    child, reports the failure once, and leaves the key without an entry. *)
Lemma spawn_failure_leaves_slot_empty_witness :
  let w := set_replyHeap <[1 := mkReply 1 "c" "b"]>
             (run Sample.ext_failing [Sample.handoff (Sample.m1 "a") 7] create) in
  let configuration := mkConfiguration (mkProcess "m1" "t1") 1 in
  mapConfigurationToProcess w !! Sample.key1 = Some 0
  ∧ ∃ w' new,
      onReceivePort Sample.ext_failing 8 configuration Sample.env w = (Normal tt, w')
      ∧ mapConfigurationToProcess w' !! Sample.key1 = None
      ∧ key_of Sample.ext_failing w' configuration = Some Sample.key1
      ∧ effects w' = (effects w ++ new)%list
      ∧ last new = Some (error_message "Unexpected error forking worker process: spawn ENOENT")
      ∧ count_posted SharedProcessWorkerMessages.WorkerError new = 1
      ∧ count_posted SharedProcessWorkerMessages.WorkerReady new = 0.
Proof.
  intros w configuration. split; [vm_compute; reflexivity|].
  apply (spawn_failure_leaves_slot_empty Sample.ext_failing 8 configuration Sample.env
           w Sample.key1 "spawn ENOENT").
  - vm_compute. reflexivity.
  - intros this H. vm_compute in H. injection H as <-. vm_compute. eauto.
  - reflexivity.
Defined.

(** C3: after [dispose], no relay callback, exit event or error event of
    the controller should post anything.  The error listener does: once
    the controller of the scenario has been disposed by a Terminate
    message, an error event of its child still posts one Warn message. *)
Theorem error_after_dispose_still_warns :
  let w := run Sample.ext [Sample.handoff (Sample.m1 "a") 7;
                           Sample.terminate_request (Sample.m1 "a")] create in
  disposed w 0 = true
  ∧ effects (step Sample.ext w (ChildError 0 "kill EPERM"))
    = (effects w ++ [warn_message "Error from child process: kill EPERM"])%list.
Proof. split; vm_compute; reflexivity. Qed.

(** The scenario "killed via dispose, then the exit event with the
    termination signal arrives": nothing is posted for it. *)
Lemma relay_and_exit_silent_after_dispose_witness :
  let w := run Sample.ext [Sample.handoff (Sample.m1 "a") 7] create in
  let w' := run Sample.ext [ChildExit 0 None (Some "SIGTERM")] (snd (dispose 0 w)) in
  (∀ buffer, send Sample.ext 0 buffer w' = (Normal tt, w'))
  ∧ (∀ msg, onRawMessage Sample.ext 0 msg w' = (Normal tt, w'))
  ∧ (∀ code signal, onExit 0 code signal w' = (Normal tt, w'))
  ∧ (∀ error, onError Sample.ext 0 error w' =
       (Normal tt, emit (warn_message ("Error from child process: " +:+ error)) w')).
Proof.
  intros w.
  apply (relay_and_exit_silent_after_dispose Sample.ext 0 w Sample.controller0
           [ChildExit 0 None (Some "SIGTERM")]).
  vm_compute. reflexivity.
Defined.

(** C6 on the scenario "exit with code 1, signal none, while not disposed". *)
Lemma exit_reported_only_as_crash_witness :
  let w := run Sample.ext [Sample.handoff (Sample.m1 "a") 7] create in
  onExit 0 (Some 1%Z) None w =
    (Normal tt,
     emit (error_message "Child process crashed with exit code 1 and signal null") w)
  ∧ onExit 0 (Some 0%Z) None w = (Normal tt, w)
  ∧ onExit 0 None (Some "SIGTERM") w = (Normal tt, w).
Proof.
  intros w.
  assert (Hp : processes w !! 0 = Some Sample.controller0) by (vm_compute; reflexivity).
  split; [|split].
  - destruct (exit_reported_only_as_crash 0 (Some 1%Z) None w _ Hp) as (H & _ & _).
    apply H; [reflexivity | discriminate | discriminate].
  - destruct (exit_reported_only_as_crash 0 (Some 0%Z) None w _ Hp) as (_ & H & _).
    apply H; [reflexivity | now left].
  - destruct (exit_reported_only_as_crash 0 None (Some "SIGTERM") w _ Hp) as (_ & H & _).
    apply H; [reflexivity | now right].
Defined.

(** C7 on a controller whose child has lost its channel. *)
Lemma send_to_disconnected_child_warns_witness :
  let w := run Sample.ext [Sample.handoff (Sample.m1 "a") 7; ChildDisconnect 0] create in
  send Sample.ext 0 [] w =
    (Normal tt, emit (warn_message "Unable to deliver message to disconnected child") w).
Proof.
  intros w.
  apply (send_to_disconnected_child_warns Sample.ext 0 [] w Sample.controller0);
    vm_compute; reflexivity.
Defined.

(** C8 as stated fails on a ReceivePort message that brings no port: the
    handler returns without posting anything, so no warning is logged. *)
Lemma receivePort_without_port_is_not_reported :
  let message := mkToWorker SharedProcessWorkerMessages.ReceivePort
                            (mkConfiguration (mkProcess "m1" "t1") 0)
                            (Some Sample.env) in
  notifyMessage Sample.ext message [] create = (Normal tt, create)
  ∧ count_posted SharedProcessWorkerMessages.WorkerWarn
      (effects (snd (notifyMessage Sample.ext message [] create))) = 0.
Proof. split; vm_compute; reflexivity. Qed.

(** C8, amended, on a message of an unknown kind and on a ReceivePort
    message without environment. *)
Lemma malformed_message_changes_nothing_witness :
  notifyMessage Sample.ext
    (mkToWorker "ping" (mkConfiguration (mkProcess "m1" "t1") 0) None) [] create
  = (Normal tt, emit (warn_message "Unexpected message '[object Object]'") create)
  ∧ notifyMessage Sample.ext
      (mkToWorker SharedProcessWorkerMessages.ReceivePort
                  (mkConfiguration (mkProcess "m1" "t1") 0) None) [MessagePort 7] create
    = (Normal tt, create).
Proof.
  split.
  - apply (malformed_message_changes_nothing Sample.ext); discriminate.
  - apply (malformed_message_changes_nothing Sample.ext); [reflexivity | now right].
Defined.

(** C9 on a worker that has registered nothing yet. *)
Lemma terminate_unregistered_is_silent_witness :
  let w := set_replyHeap <[0 := mkReply 1 "c" "a"]> create in
  let configuration := mkConfiguration (mkProcess "m1" "t1") 0 in
  ∃ w', terminate Sample.ext configuration w = (Normal tt, w')
        ∧ (∀ environment transfer,
             notifyMessage Sample.ext
               (mkToWorker SharedProcessWorkerMessages.WorkerTerminate
                           configuration environment) transfer w = (Normal tt, w'))
        ∧ effects w' = effects w
        ∧ mapConfigurationToProcess w' = mapConfigurationToProcess w
        ∧ processes w' = processes w
        ∧ children w' = children w
        ∧ portOnmessage w' = portOnmessage w
        ∧ closed w' = closed w.
Proof.
  intros w configuration.
  apply (terminate_unregistered_is_silent Sample.ext configuration w Sample.key1);
    vm_compute; reflexivity.
Defined.

(** C10 on a worker with two registered controllers: terminating the first
    one calls [close()] although the second one stays registered. *)
Lemma terminate_registered_always_closes_witness :
  let w := set_replyHeap <[2 := mkReply 1 "c" "z"]>
             (run Sample.ext [Sample.handoff (Sample.m1 "a") 7;
                              Sample.handoff (Sample.m2 "b") 8] create) in
  let configuration := mkConfiguration (mkProcess "m1" "t1") 2 in
  closed w = false
  ∧ ∃ w', terminate Sample.ext configuration w = (Normal tt, w')
          ∧ closed w' = true
          ∧ effects w' = (effects w ++ [trace_message "Terminating worker process";
                                        Kill 0; Close])%list
          ∧ mapConfigurationToProcess w' !! Sample.hashObject (Sample.m2 "") = Some 1.
Proof.
  intros w configuration. split; [reflexivity|].
  destruct (terminate_registered_always_closes Sample.ext configuration w Sample.key1
              0 Sample.controller0)
    as (w' & Hrun & Heff & Hclosed & _ & Hmap & _).
  - vm_compute. reflexivity.
  - vm_compute. reflexivity.
  - vm_compute. reflexivity.
  - exists w'. split; [exact Hrun|]. split; [exact Hclosed|]. split; [exact Heff|].
    rewrite Hmap. vm_compute. reflexivity.
Defined.

(** * Further properties of the two files *)

Section MoreFacts.

Variable ext : Externals.

(** ** [hash] *)

(** X1: a second [hash] of the same configuration returns the same key and
    leaves the store exactly as the first call left it. *)
Theorem hash_twice_is_hash_once (configuration : ISharedProcessWorkerConfiguration)
    (w : World) (r : Reply) :
  replyHeap w !! reply configuration = Some r →
  hash ext configuration (snd (hash ext configuration w)) = hash ext configuration w.
Proof.
  intros Hr. rewrite (hash_run ext _ _ _ Hr). cbn [snd].
  erewrite hash_run by (cbn; apply lookup_insert_eq).
  f_equal. unfold set_replyHeap. cbn. f_equal. apply insert_insert_eq.
Qed.

(** X2: all that [hash] changes in the store is the [nonce] of the [reply]
    object of its argument: the other [reply] objects, that object's
    [windowId] and [channel], the controllers, the registry, the children,
    the port handlers, the close flag and the log stay as they were. *)
Theorem hash_changes_only_the_nonce (configuration : ISharedProcessWorkerConfiguration)
    (w : World) (r : Reply) :
  replyHeap w !! reply configuration = Some r →
  let w' := snd (hash ext configuration w) in
  replyHeap w' !! reply configuration = Some (mkReply (windowId r) (channel r) "")
  ∧ (∀ l, l ≠ reply configuration → replyHeap w' !! l = replyHeap w !! l)
  ∧ processes w' = processes w
  ∧ mapConfigurationToProcess w' = mapConfigurationToProcess w
  ∧ children w' = children w
  ∧ portOnmessage w' = portOnmessage w
  ∧ closed w' = closed w
  ∧ effects w' = effects w.
Proof.
  intros Hr w'. subst w'. rewrite (hash_run ext _ _ _ Hr). cbn.
  split; [apply lookup_insert_eq|].
  split; [intros l Hl; now rewrite lookup_insert_ne|].
  repeat split.
Qed.

(** ** [getEnv] *)

(** X3: the environment that [getEnv] hands to the sanitizer holds the four
    variables of the worker, whatever the hosting process had under these
    names, and every other variable of the hosting process unchanged. *)
Theorem getEnv_overlays_the_inherited_environment (p : SharedProcessWorkerProcess) :
  ∃ env,
    getEnv ext p = removeDangerousEnvVariables ext env
    ∧ env !! "VSCODE_AMD_ENTRYPOINT" = Some (moduleId (process (configuration p)))
    ∧ env !! "VSCODE_PIPE_LOGGING" = Some "true"
    ∧ env !! "VSCODE_VERBOSE_LOGGING" = Some "true"
    ∧ env !! "VSCODE_PARENT_PID" = Some (pretty (process_pid ext))
    ∧ (∀ key, overlaid key = false → env !! key = process_env ext !! key).
Proof.
  eexists. split; [reflexivity|].
  split; [now rewrite !lookup_insert_ne, lookup_insert_eq by done|].
  split; [now rewrite !lookup_insert_ne, lookup_insert_eq by done|].
  split; [now rewrite !lookup_insert_ne, lookup_insert_eq by done|].
  split; [now rewrite lookup_insert_eq|].
  intros key Hkey. unfold overlaid in Hkey. apply bool_decide_eq_false in Hkey.
  rewrite !lookup_insert_ne; [reflexivity|..]; intros <-; apply Hkey; set_solver.
Qed.

(** ** [dispose] *)

(** X4: [dispose] may be called again on a disposed controller: the second
    call returns normally, posts nothing, leaves controllers, children and
    registry as the first call left them, and calls [kill()] on the child
    once more. *)
Theorem dispose_twice (this : nat) (w : World) (p : SharedProcessWorkerProcess) :
  processes w !! this = Some p →
  let w1 := snd (dispose this w) in
  ∃ w2, dispose this w1 = (Normal tt, w2)
        ∧ processes w2 = processes w1
        ∧ children w2 = children w1
        ∧ mapConfigurationToProcess w2 = mapConfigurationToProcess w1
        ∧ closed w2 = closed w1
        ∧ disposed w2 this = true
        ∧ effects w2 = (effects w1 ++ kill_effects (child p))%list.
Proof.
  intros Hp w1. subst w1. rewrite (dispose_run _ _ _ Hp). cbn [snd].
  assert (Hp1 : processes (after_dispose this (child p) w) !! this
                = Some (set_isDisposed true p)).
  { unfold after_dispose. destruct (child p); cbn;
      now rewrite list_lookup_alter_eq, Hp. }
  eexists. split; [apply (dispose_run _ _ _ Hp1)|].
  unfold disposed, after_dispose. cbn [child set_isDisposed].
  destruct (child p) as [c|]; cbn; rewrite !list_alter_alter_eq,
    list_lookup_alter_eq, Hp; cbn; repeat split;
    try (apply list_alter_ext; [now intros []|done]); try (symmetry; apply app_nil_r).
Qed.

(** ** The listeners *)

Lemma only_logs_refl w : only_logs w w.
Proof. repeat split; reflexivity. Qed.

Lemma only_logs_emit e w : only_logs w (emit e w).
Proof. repeat split. cbn. now apply prefix_app_r. Qed.

Lemma only_logs_trans w1 w2 w3 : only_logs w1 w2 → only_logs w2 w3 → only_logs w1 w3.
Proof.
  intros (A1 & A2 & A3 & A4 & A5 & A6 & A7) (B1 & B2 & B3 & B4 & B5 & B6 & B7).
  repeat split; try congruence. etransitivity; eauto.
Qed.

Lemma only_logs_onExit this code signal w : only_logs w (snd (onExit this code signal w)).
Proof.
  unfold onExit, bind, getProcess. destruct (processes w !! this) as [p|];
    [|apply only_logs_refl].
  destruct (isDisposed p); [apply only_logs_refl|].
  destruct (_ && _); [apply only_logs_emit | apply only_logs_refl].
Qed.

Lemma only_logs_onRawMessage this msg w :
  only_logs w (snd (onRawMessage ext this msg w)).
Proof.
  unfold onRawMessage, bind, getProcess. destruct (processes w !! this) as [p|];
    [|apply only_logs_refl].
  destruct (isDisposed p); [apply only_logs_refl|].
  destruct (isRemoteConsoleLog ext msg); apply only_logs_emit.
Qed.

Lemma only_logs_send this buffer w : only_logs w (snd (send ext this buffer w)).
Proof.
  unfold send, bind, getProcess. destruct (processes w !! this) as [p|];
    [|apply only_logs_refl].
  destruct (isDisposed p); [apply only_logs_refl|].
  destruct (child_connected w p); [|apply only_logs_emit].
  destruct (child p); [apply only_logs_emit | apply only_logs_refl].
Qed.

(** X5: an exit, an error or a message of a child, and a message on a port,
    change nothing but the log.  In particular a controller whose child
    has crashed stays in the registry, not disposed, until a terminate
    reaches it. *)
Theorem listener_events_only_log (w : World) :
  (∀ pid error, only_logs w (step ext w (ChildError pid error)))
  ∧ (∀ pid code signal, only_logs w (step ext w (ChildExit pid code signal)))
  ∧ (∀ pid msg, only_logs w (step ext w (ChildMessage pid msg)))
  ∧ (∀ pt data, only_logs w (step ext w (PortMessage pt data))).
Proof.
  unfold step. cbn. unfold withListener. split; [|split; [|split]]; intros.
  - destruct (_ ≫= _); [apply only_logs_emit | apply only_logs_refl].
  - destruct (_ ≫= _); [apply only_logs_onExit | apply only_logs_refl].
  - destruct (_ ≫= _); [apply only_logs_onRawMessage | apply only_logs_refl].
  - destruct (_ !! _); [apply only_logs_send | apply only_logs_refl].
Qed.

Lemma step_ChildMessage c ch this p msg w :
  children w !! c = Some ch → listeners ch = Some this →
  processes w !! this = Some p → isDisposed p = false →
  step ext w (ChildMessage c msg) = emit (relay_out ext (port p) msg) w.
Proof.
  intros Hc Hl Hp Hd. unfold step. cbn. unfold withListener. rewrite Hc. cbn.
  rewrite Hl. unfold onRawMessage, bind. rewrite (getProcess_run _ _ _ Hp), Hd.
  unfold relay_out. now destruct (isRemoteConsoleLog ext msg).
Qed.

(** X6: the messages of the child of a controller that is not disposed are
    relayed one by one in the order they arrive: a remote console log goes
    to the logging sink, every other message is decoded and posted to the
    controller's port; nothing else changes. *)
Theorem child_messages_are_relayed_in_order (c this : nat) (ch : ChildProcess)
    (p : SharedProcessWorkerProcess) (msgs : list string) (w : World) :
  children w !! c = Some ch →
  listeners ch = Some this →
  processes w !! this = Some p →
  isDisposed p = false →
  let w' := run ext (ChildMessage c <$> msgs) w in
  effects w' = (effects w ++ (relay_out ext (port p) <$> msgs))%list
  ∧ only_logs w w'.
Proof.
  revert w. induction msgs as [|msg msgs IH]; intros w Hc Hl Hp Hd; cbn.
  - split; [now rewrite app_nil_r | apply only_logs_refl].
  - rewrite (step_ChildMessage _ _ _ _ msg _ Hc Hl Hp Hd).
    destruct (IH (emit (relay_out ext (port p) msg) w)) as [He Ho]; auto.
    split.
    + unfold run in He. rewrite He. cbn. now rewrite <- app_assoc.
    + eapply only_logs_trans; [apply only_logs_emit | exact Ho].
Qed.

Lemma step_PortMessage pt this p c buffer w :
  portOnmessage w !! pt = Some this →
  processes w !! this = Some p → isDisposed p = false → child p = Some c →
  step ext w (PortMessage pt buffer) =
    emit (if child_connected w p then relay_in ext c buffer
          else warn_message "Unable to deliver message to disconnected child") w.
Proof.
  intros Hpt Hp Hd Hc. unfold step. cbn. rewrite Hpt.
  unfold send, bind. rewrite (getProcess_run _ _ _ Hp), Hd.
  destruct (child_connected w p); [now rewrite Hc | reflexivity].
Qed.

(** X7: the buffers that arrive on the port of a controller that is not
    disposed are handled one by one in the order they arrive: while the
    child is connected each one is encoded and sent to the child, and
    while it is not each one is answered by one Warn message; nothing else
    changes. *)
Theorem port_messages_are_forwarded_in_order (pt this c : nat)
    (p : SharedProcessWorkerProcess) (buffers : list (list Byte.byte)) (w : World) :
  portOnmessage w !! pt = Some this →
  processes w !! this = Some p →
  isDisposed p = false →
  child p = Some c →
  let w' := run ext (PortMessage pt <$> buffers) w in
  effects w' =
    (effects w
     ++ ((fun buffer =>
            if child_connected w p then relay_in ext c buffer
            else warn_message "Unable to deliver message to disconnected child")
         <$> buffers))%list
  ∧ only_logs w w'.
Proof.
  revert w. induction buffers as [|buffer buffers IH]; intros w Hpt Hp Hd Hc; cbn.
  - split; [now rewrite app_nil_r | apply only_logs_refl].
  - rewrite (step_PortMessage _ _ _ _ buffer _ Hpt Hp Hd Hc).
    set (e := if child_connected w p then _ else _).
    destruct (IH (emit e w)) as [He Ho]; auto.
    split.
    + unfold run in He. rewrite He. cbn. now rewrite <- app_assoc.
    + eapply only_logs_trans; [apply only_logs_emit | exact Ho].
Qed.

(** ** [onReceivePort] *)

(** The run of a handoff for a key that has no entry, on a host whose
    [fork] succeeds. *)
Lemma first_handoff_run (port : nat)
    (configuration : ISharedProcessWorkerConfiguration)
    (environment : ISharedProcessWorkerEnvironment) (w : World) (k : Z) :
  key_of ext w configuration = Some k →
  mapConfigurationToProcess w !! k = None →
  fork_outcome ext (fresh_controller port configuration environment)
               (length (children w)) = None →
  ∃ w',
    onReceivePort ext port configuration environment w = (Normal tt, w')
    ∧ effects w' =
        (effects w
         ++ [trace_message "Received the message port and configuration";
             trace_message "Forking worker process";
             Fork (bootstrapPath environment)
                  ["--type=" +:+ type (process configuration)]
                  (getEnv ext (fresh_controller port configuration environment));
             trace_message "Worker is ready";
             ready_message])%list
    ∧ processes w' =
        (processes w
         ++ [mkWorkerProcess port configuration environment
                             (Some (length (children w))) false])%list
    ∧ children w' =
        (children w ++ [mkChild true false (Some (length (processes w)))])%list
    ∧ mapConfigurationToProcess w' = <[k := length (processes w)]> (mapConfigurationToProcess w)
    ∧ portOnmessage w' = <[port := length (processes w)]> (portOnmessage w)
    ∧ closed w' = closed w.
Proof.
  intros Hk Hm Hf. destruct (key_of_Some ext _ _ _ Hk) as (r & Hr & Hkr).
  pose proof (terminate_absent ext configuration
                (emit (trace_message "Received the message port and configuration") w)
                k r Hr Hkr Hm) as Ht.
  eexists. split.
  { eapply (onReceivePort_fork_ok ext); [exact Ht | cbn; apply lookup_insert_eq | exact Hf]. }
  cbn. rewrite !alter_snoc. subst k. repeat split.
  now rewrite <- !app_assoc.
Qed.

(** X8: a handoff for a key that has no entry, on a host whose [fork]
    succeeds, kills nothing and does not call [close()]: it posts its
    trace, forks the bootstrap script with the one argument [--type=..],
    posts "Worker is ready" and WorkerReady, and leaves the new controller
    with its new connected child, bound to the port and filed under the
    key. *)
Theorem first_handoff_registers (port : nat)
    (configuration : ISharedProcessWorkerConfiguration)
    (environment : ISharedProcessWorkerEnvironment) (w : World) (k : Z) :
  key_of ext w configuration = Some k →
  mapConfigurationToProcess w !! k = None →
  fork_outcome ext (fresh_controller port configuration environment)
               (length (children w)) = None →
  ∃ w',
    onReceivePort ext port configuration environment w = (Normal tt, w')
    ∧ effects w' =
        (effects w
         ++ [trace_message "Received the message port and configuration";
             trace_message "Forking worker process";
             Fork (bootstrapPath environment)
                  ["--type=" +:+ type (process configuration)]
                  (getEnv ext (fresh_controller port configuration environment));
             trace_message "Worker is ready";
             ready_message])%list
    ∧ processes w' =
        (processes w
         ++ [mkWorkerProcess port configuration environment
                             (Some (length (children w))) false])%list
    ∧ children w' =
        (children w ++ [mkChild true false (Some (length (processes w)))])%list
    ∧ mapConfigurationToProcess w' = <[k := length (processes w)]> (mapConfigurationToProcess w)
    ∧ portOnmessage w' = <[port := length (processes w)]> (portOnmessage w)
    ∧ closed w' = closed w.
Proof. apply first_handoff_run. Qed.


(** ** Every handler run as a sequence of moves *)

Lemma transition_stay w w' :
  processes w' = processes w →
  mapConfigurationToProcess w' = mapConfigurationToProcess w →
  children w' = children w →
  portOnmessage w' = portOnmessage w →
  closed w' = closed w →
  effects w' = effects w →
  transition ext w w'.
Proof.
  intros. apply (transition_quiet _ _ _ []); auto. now rewrite app_nil_r.
Qed.

Lemma transition_emit e w : quiet e = true → transition ext w (emit e w).
Proof.
  intros He. apply (transition_quiet _ _ _ [e]); auto. cbn. now rewrite He.
Qed.

Lemma transition_onExit this code signal w :
  transition ext w (snd (onExit this code signal w)).
Proof.
  unfold onExit, bind, getProcess. destruct (processes w !! this) as [p|];
    [|now apply transition_stay].
  destruct (isDisposed p); [now apply transition_stay|].
  destruct (_ && _); [now apply transition_emit | now apply transition_stay].
Qed.

Lemma transition_onRawMessage this msg w :
  transition ext w (snd (onRawMessage ext this msg w)).
Proof.
  unfold onRawMessage, bind, getProcess. destruct (processes w !! this) as [p|];
    [|now apply transition_stay].
  destruct (isDisposed p); [now apply transition_stay|].
  destruct (isRemoteConsoleLog ext msg); now apply transition_emit.
Qed.

Lemma transition_send this buffer w :
  transition ext w (snd (send ext this buffer w)).
Proof.
  unfold send, bind, getProcess. destruct (processes w !! this) as [p|];
    [|now apply transition_stay].
  destruct (isDisposed p); [now apply transition_stay|].
  destruct (child_connected w p) eqn:Hconn; [|now apply transition_emit].
  unfold child_connected in Hconn.
  destruct (child p) as [c|]; [|now apply transition_stay].
  apply (transition_relay_in ext _ _ c (toBase64 ext buffer)); auto.
  destruct (children w !! c) as [ch|]; [|discriminate]. cbn. now rewrite Hconn.
Qed.

(** [terminate] in a store that satisfies the registry invariant. *)
Lemma terminate_transition configuration w r :
  registry_ok ext w →
  replyHeap w !! reply configuration = Some r →
  ∃ w1, terminate ext configuration w = (Normal tt, w1)
        ∧ registry_ok ext w1
        ∧ replyHeap w1 !! reply configuration = Some (blank_nonce r)
        ∧ mapConfigurationToProcess w1
            !! hashObject ext (mkConfigurationValue (process configuration) (blank_nonce r))
          = None
        ∧ transition ext w w1.
Proof.
  intros Hok Hr.
  destruct (registry_ok_terminate ext configuration w r Hok Hr)
    as (w1 & Ht & Hok1 & Hnone & Hheap & _).
  exists w1. split; [exact Ht|]. split; [exact Hok1|].
  split; [rewrite Hheap; apply lookup_insert_eq|]. split; [exact Hnone|].
  set (k := hashObject ext (mkConfigurationValue (process configuration) (blank_nonce r))).
  destruct (mapConfigurationToProcess w !! k) as [this|] eqn:Hm.
  - destruct (ok_registered _ _ Hok _ _ Hm) as [Hlive _].
    apply live_true in Hlive as (p & c & Hp & Hc & Hd).
    rewrite (terminate_present ext _ _ k r this p Hr eq_refl Hm Hp), Hc in Ht.
    injection Ht as <-.
    apply (transition_terminate ext _ _ k this c p); auto.
    cbn. now rewrite <- !app_assoc.
  - rewrite (terminate_absent ext _ _ k r Hr eq_refl Hm) in Ht. injection Ht as <-.
    now apply transition_stay.
Qed.

(** [onReceivePort] in a store that satisfies the registry invariant: it
    returns normally, after its trace, then maybe the move of [terminate],
    then one of the two moves of a handoff. *)
Lemma onReceivePort_transitions port configuration environment w r :
  registry_ok ext w →
  replyHeap w !! reply configuration = Some r →
  fst (onReceivePort ext port configuration environment w) = Normal tt
  ∧ rtc (transition ext) w (snd (onReceivePort ext port configuration environment w)).
Proof.
  intros Hok Hr.
  set (w0 := emit (trace_message "Received the message port and configuration") w).
  assert (Hok0 : registry_ok ext w0)
    by (eapply same_registry_ok; [| | |exact Hok]; done).
  destruct (terminate_transition configuration w0 r Hok0 Hr)
    as (w1 & Ht & Hok1 & Hr1 & Hnone & Hmove).
  assert (H01 : rtc (transition ext) w w1).
  { apply (rtc_l _ _ w0); [now apply transition_emit|].
    now apply rtc_once. }
  destruct (fork_outcome ext (fresh_controller port configuration environment)
                         (length (children w1))) as [e|] eqn:Hf.
  - rewrite (onReceivePort_fork_throws ext _ _ _ _ _ _ Ht Hf). split; [reflexivity|].
    etransitivity; [exact H01|]. apply rtc_once. cbn.
    apply (transition_fork_fails ext _ _
             (fresh_controller port configuration environment) e); auto.
    cbn. now rewrite <- app_assoc.
  - rewrite (onReceivePort_fork_ok ext _ _ _ _ _ _ Ht Hr1 Hf). split; [reflexivity|].
    etransitivity; [exact H01|]. apply rtc_once. cbn.
    apply (transition_spawn ext _ _
             (hashObject ext (mkConfigurationValue (process configuration) (blank_nonce r)))
             (fresh_controller port configuration environment)); auto.
    + cbn. now rewrite alter_snoc.
    + cbn. now rewrite alter_snoc.
    + cbn. now rewrite <- !app_assoc.
Qed.

Lemma notifyMessage_transitions message transfer w r :
  registry_ok ext w →
  replyHeap w !! reply (msg_configuration message) = Some r →
  fst (notifyMessage ext message transfer w) = Normal tt
  ∧ rtc (transition ext) w (snd (notifyMessage ext message transfer w)).
Proof.
  intros Hok Hr. unfold notifyMessage, onTerminate.
  destruct (bool_decide (msg_id message = _)).
  - destruct (head transfer) as [[port|]|]; try (split; [reflexivity | apply rtc_refl]).
    destruct (msg_environment message); try (split; [reflexivity | apply rtc_refl]).
    now apply (onReceivePort_transitions _ _ _ _ r).
  - destruct (bool_decide (msg_id message = _)).
    + destruct (terminate_transition _ _ _ Hok Hr) as (w1 & -> & _ & _ & _ & Hmove).
      split; [reflexivity | now apply rtc_once].
    + split; [reflexivity|]. apply rtc_once. now apply transition_emit.
Qed.

Lemma step_transitions w e :
  registry_ok ext w → rtc (transition ext) w (step ext w e).
Proof.
  intros Hok. unfold step. destruct e; cbn.
  - unfold bind, receive.
    set (wr := set_replyHeap <[fresh (dom (replyHeap w)) := reply_value configuration0]> w).
    eapply rtc_l; [apply (transition_stay w wr); reflexivity|].
    apply (notifyMessage_transitions _ _ wr (reply_value configuration0)).
    + apply registry_ok_heap; [apply fresh_write_agrees | exact Hok].
    + cbn. apply lookup_insert_eq.
  - unfold withListener. destruct (_ ≫= _); [|apply rtc_refl].
    apply rtc_once. now apply transition_emit.
  - unfold withListener. destruct (_ ≫= _); [|apply rtc_refl].
    apply rtc_once, transition_onExit.
  - unfold withListener. destruct (_ ≫= _); [|apply rtc_refl].
    apply rtc_once, transition_onRawMessage.
  - apply rtc_once. now apply (transition_disconnect ext _ _ pid).
  - destruct (_ !! _); [|apply rtc_refl]. apply rtc_once, transition_send.
Qed.

(** ** What the log says about the store *)

Lemma count_effect_app f es1 es2 :
  count_effect f (es1 ++ es2)%list = count_effect f es1 + count_effect f es2.
Proof. induction es1 as [|e es1 IH]; cbn; [reflexivity | rewrite IH; lia]. Qed.

Lemma count_posted_count_effect ident es :
  count_posted ident es = count_effect (posts ident) es.
Proof.
  unfold count_posted. induction es as [|e es IH]; [reflexivity|].
  rewrite filter_cons. cbn [count_effect]. rewrite <- IH.
  destruct (posts ident e); case_decide; cbn; congruence.
Qed.

Lemma count_effect_quiet f new :
  (∀ e, quiet e = true → f e = false) →
  forallb quiet new = true → count_effect f new = 0.
Proof.
  intros Hf. induction new as [|e new IH]; [reflexivity|]. cbn.
  intros [He Hnew]%andb_true_iff. now rewrite (Hf _ He), IH.
Qed.

Lemma quiet_not_fork e : quiet e = true → is_fork e = false.
Proof. now destruct e. Qed.

Lemma quiet_not_kill e : quiet e = true → is_kill e = false.
Proof. now destruct e. Qed.

Lemma quiet_not_close e : quiet e = true → is_close e = false.
Proof. now destruct e. Qed.

Lemma quiet_not_ready e :
  quiet e = true → posts SharedProcessWorkerMessages.WorkerReady e = false.
Proof.
  destruct e as [m| | | | | |]; cbn; try done.
  intros Hm%bool_decide_eq_true. apply bool_decide_eq_false. intros Heq.
  rewrite Heq in Hm.
  repeat (apply elem_of_cons in Hm as [Hm|Hm]; [discriminate|]).
  now apply elem_of_nil in Hm.
Qed.

Lemma quiet_not_request e :
  quiet e = true → posts SharedProcessWorkerMessages.RequestPort e = false.
Proof.
  destruct e as [m| | | | | |]; cbn; try done.
  intros Hm%bool_decide_eq_true. apply bool_decide_eq_false. intros Heq.
  rewrite Heq in Hm.
  repeat (apply elem_of_cons in Hm as [Hm|Hm]; [discriminate|]).
  now apply elem_of_nil in Hm.
Qed.

Lemma log_ok_transition w w' : transition ext w w' → log_ok w → log_ok w'.
Proof.
  intros Hmove [Hreq Hforks Hready Hkills Hclosed].
  rewrite count_posted_count_effect in Hreq, Hready.
  destruct Hmove as
    [new Hq Hps Hm Hch Hpt Hcl He
    |pid payload _ Hps Hm Hch Hpt Hcl He
    |pid Hps Hm Hch Hpt Hcl He
    |k this c p _ _ _ _ Hps Hm Hch Hpt Hcl He
    |p e _ _ Hps Hm Hch Hpt Hcl He
    |k p _ _ _ Hps Hm Hch Hpt Hcl He];
    split; rewrite ?count_posted_count_effect, He, ?Hch, ?Hcl, ?count_effect_app,
             ?length_alter, ?length_app;
    rewrite ?(count_effect_quiet _ _ quiet_not_fork Hq),
            ?(count_effect_quiet _ _ quiet_not_kill Hq),
            ?(count_effect_quiet _ _ quiet_not_close Hq),
            ?(count_effect_quiet _ _ quiet_not_ready Hq),
            ?(count_effect_quiet _ _ quiet_not_request Hq);
    cbn; try lia; try (rewrite Hclosed; lia); try (split; [lia | reflexivity]);
    repeat case_bool_decide; try discriminate; try congruence; lia.
Qed.

(** ** How controllers, children and ports are wired *)

Lemma lookup_snoc_Some {A} (l : list A) (x y : A) (i : nat) :
  (l ++ [x])%list !! i = Some y → l !! i = Some y ∨ (i = length l ∧ y = x).
Proof.
  intros H. apply lookup_app_Some in H as [H|[Hge H]]; [now left|right].
  apply list_lookup_singleton_Some in H as [Hz H]. split; [lia|congruence].
Qed.

Lemma wiring_ok_quiet w w' :
  processes w' = processes w →
  children w' = children w →
  portOnmessage w' = portOnmessage w →
  closed w' = closed w →
  wiring_ok w → wiring_ok w'.
Proof.
  intros Hps Hch Hpt Hcl [H1 H2 H3 H4].
  split; unfold disposed; rewrite ?Hps, ?Hch, ?Hpt, ?Hcl; auto.
Qed.

Lemma wiring_ok_disconnect w w' pid :
  processes w' = processes w →
  children w' = alter (fun ch => mkChild false (killed ch) (listeners ch)) pid (children w) →
  portOnmessage w' = portOnmessage w →
  closed w' = closed w →
  wiring_ok w → wiring_ok w'.
Proof.
  intros Hps Hch Hpt Hcl [H1 H2 H3 H4].
  split; unfold disposed; rewrite ?Hps, ?Hch, ?Hpt, ?Hcl; auto.
  - intros this p c Hp Hc. destruct (H1 _ _ _ Hp Hc) as (ch & Hch' & Hl & Hk).
    rewrite list_lookup_alter. case_decide; [subst pid|eauto].
    rewrite Hch'. cbn. eauto.
  - intros c ch. rewrite list_lookup_alter. case_decide; [subst pid|apply H2].
    destruct (children w !! c) as [ch0|] eqn:E; [|discriminate].
    cbn. intros [= <-]. apply (H2 _ _ E).
Qed.

Lemma wiring_ok_terminate w w' this c p :
  processes w !! this = Some p →
  child p = Some c →
  processes w' = alter (set_isDisposed true) this (processes w) →
  children w' = alter (fun ch => mkChild (connected ch) true (listeners ch)) c (children w) →
  portOnmessage w' = portOnmessage w →
  closed w' = true →
  wiring_ok w → wiring_ok w'.
Proof.
  intros Hp Hc Hps Hch Hpt Hcl [H1 H2 H3 H4].
  destruct (H1 _ _ _ Hp Hc) as (ch & Hchc & Hl & Hk).
  split; unfold disposed; rewrite ?Hps, ?Hch, ?Hpt, ?Hcl; auto.
  - intros this' p' c'. rewrite list_lookup_alter. case_decide.
    + subst this'. rewrite Hp. cbn. intros [= <-]. cbn. rewrite Hc. intros [= <-].
      rewrite list_lookup_alter_eq, Hchc. cbn. eauto.
    + intros Hp' Hc'. destruct (H1 _ _ _ Hp' Hc') as (ch' & Hch' & Hl' & Hk').
      rewrite list_lookup_alter_ne; [eauto|].
      intros <-. congruence.
  - intros c' ch'. rewrite list_lookup_alter. case_decide.
    + subst c'. rewrite Hchc. cbn. intros [= <-]. cbn.
      exists this, (set_isDisposed true p). rewrite list_lookup_alter_eq, Hp. auto.
    + intros Hch'. destruct (H2 _ _ Hch') as (this' & p' & Hl' & Hp' & Hc').
      destruct (decide (this = this')) as [<-|Hne].
      * exists this, (set_isDisposed true p).
        rewrite list_lookup_alter_eq, Hp. split; [exact Hl'|]. split; [reflexivity|].
        cbn. congruence.
      * exists this', p'. now rewrite list_lookup_alter_ne.
  - intros pt this' Hpt'. destruct (H3 _ _ Hpt') as (p' & Hp' & Hc').
    rewrite list_lookup_alter. case_decide; [subst this'|eauto].
    rewrite Hp'. cbn. eauto.
Qed.

Lemma wiring_ok_fork_fails w w' p :
  child p = None →
  isDisposed p = false →
  processes w' = (processes w ++ [p])%list →
  children w' = children w →
  portOnmessage w' = portOnmessage w →
  closed w' = closed w →
  wiring_ok w → wiring_ok w'.
Proof.
  intros Hc Hd Hps Hch Hpt Hcl [H1 H2 H3 H4].
  split; unfold disposed; rewrite ?Hps, ?Hch, ?Hpt, ?Hcl.
  - intros this' p' c' [Hp'|[_ ->]]%lookup_snoc_Some Hc'; [eauto|congruence].
  - intros c' ch' Hch'. destruct (H2 _ _ Hch') as (this' & p' & Hl' & Hp' & Hc').
    exists this', p'. split; [exact Hl'|]. split; [|exact Hc'].
    now apply lookup_app_l_Some.
  - intros pt this' Hpt'. destruct (H3 _ _ Hpt') as (p' & Hp' & Hc').
    exists p'. split; [now apply lookup_app_l_Some | exact Hc'].
  - intros this'. destruct ((processes w ++ [p])%list !! this') as [p'|] eqn:E;
      [|discriminate].
    apply lookup_snoc_Some in E as [E|[_ ->]]; [|congruence].
    intros Hd'. apply (H4 this'). unfold disposed. now rewrite E.
Qed.

Lemma wiring_ok_spawn w w' p :
  isDisposed p = false →
  processes w' = (processes w ++ [set_child (Some (length (children w))) p])%list →
  children w' = (children w ++ [mkChild true false (Some (length (processes w)))])%list →
  portOnmessage w' = <[port p := length (processes w)]> (portOnmessage w) →
  closed w' = closed w →
  wiring_ok w → wiring_ok w'.
Proof.
  intros Hd Hps Hch Hpt Hcl [H1 H2 H3 H4].
  split; unfold disposed; rewrite ?Hps, ?Hch, ?Hpt, ?Hcl.
  - intros this' p' c' [Hp'|[-> ->]]%lookup_snoc_Some Hc'.
    + destruct (H1 _ _ _ Hp' Hc') as (ch' & Hch' & Hl' & Hk').
      exists ch'. split; [now apply lookup_app_l_Some | auto].
    + cbn in Hc'. injection Hc' as <-. eexists. split; [apply lookup_snoc|].
      cbn. now rewrite Hd.
  - intros c' ch' [Hch'|[-> ->]]%lookup_snoc_Some.
    + destruct (H2 _ _ Hch') as (this' & p' & Hl' & Hp' & Hc').
      exists this', p'. split; [exact Hl'|]. split; [|exact Hc'].
      now apply lookup_app_l_Some.
    + eexists _, _. split; [reflexivity|]. split; [apply lookup_snoc | reflexivity].
  - intros pt this'. rewrite lookup_insert. case_decide.
    + intros [= <-]. eexists. split; [apply lookup_snoc | cbn; eauto].
    + intros Hpt'. destruct (H3 _ _ Hpt') as (p' & Hp' & Hc').
      exists p'. split; [now apply lookup_app_l_Some | exact Hc'].
  - intros this'.
    destruct ((processes w ++ [set_child (Some (length (children w))) p])%list !! this')
      as [p'|] eqn:E; [|discriminate].
    apply lookup_snoc_Some in E as [E|[_ ->]]; [|cbn; congruence].
    intros Hd'. apply (H4 this'). unfold disposed. now rewrite E.
Qed.

Lemma wiring_ok_transition w w' : transition ext w w' → wiring_ok w → wiring_ok w'.
Proof.
  intros [new Hq Hps Hm Hch Hpt Hcl He
         |pid payload _ Hps Hm Hch Hpt Hcl He
         |pid Hps Hm Hch Hpt Hcl He
         |k this c p _ Hp Hc _ Hps Hm Hch Hpt Hcl He
         |p e Hc Hd Hps Hm Hch Hpt Hcl He
         |k p _ _ Hd Hps Hm Hch Hpt Hcl He].
  - now apply wiring_ok_quiet.
  - now apply wiring_ok_quiet.
  - now apply (wiring_ok_disconnect _ _ pid).
  - now apply (wiring_ok_terminate _ _ this c p).
  - now apply (wiring_ok_fork_fails _ _ p).
  - now apply (wiring_ok_spawn _ _ p).
Qed.

Lemma log_ok_create : log_ok create.
Proof. split; cbn; try reflexivity. split; [discriminate | lia]. Qed.

Lemma wiring_ok_create : wiring_ok create.
Proof.
  split; unfold disposed; cbn.
  - intros this p c H. now rewrite lookup_nil in H.
  - intros c ch H. now rewrite lookup_nil in H.
  - intros pt this H. now rewrite lookup_empty in H.
  - intros this. now rewrite lookup_nil.
Qed.

Lemma transitions_log_and_wiring w w' :
  rtc (transition ext) w w' → log_ok w ∧ wiring_ok w → log_ok w' ∧ wiring_ok w'.
Proof.
  induction 1 as [|w1 w2 w3 Hmove _ IH]; [auto|].
  intros [Hlog Hwire]. apply IH. split.
  - now apply (log_ok_transition w1 w2).
  - now apply (wiring_ok_transition w1 w2).
Qed.

Lemma reachable_log_and_wiring w :
  reachable ext w → log_ok w ∧ wiring_ok w.
Proof.
  induction 1 as [|w e Hreach IH].
  - split; [apply log_ok_create | apply wiring_ok_create].
  - apply (transitions_log_and_wiring w); [|exact IH].
    apply step_transitions, reachable_registry_ok, Hreach.
Qed.

(** ** What holds in every store the worker can reach *)

(** X10: every entry of the registry is a live controller (forked, not
    disposed) filed under the key of its own configuration, and no
    controller is filed under two keys. *)
Theorem registry_entries_are_live (w : World) :
  reachable ext w →
  (∀ k this,
     mapConfigurationToProcess w !! k = Some this →
     live w this = true ∧ fingerprint_of ext w this = Some k)
  ∧ (∀ k1 k2 this,
       mapConfigurationToProcess w !! k1 = Some this →
       mapConfigurationToProcess w !! k2 = Some this →
       k1 = k2).
Proof.
  intros Hreach. pose proof (reachable_registry_ok ext w Hreach) as Hok. split.
  - apply (ok_registered _ _ Hok).
  - intros k1 k2 this H1 H2.
    destruct (ok_registered _ _ Hok _ _ H1) as [_ E1].
    destruct (ok_registered _ _ Hok _ _ H2) as [_ E2]. congruence.
Qed.

Lemma reachable_evolves w : reachable ext w → evolves create w.
Proof.
  induction 1 as [|w e _ IH]; [apply evolves_refl|].
  eapply evolves_trans; [exact IH | apply (extends_handle ext e w)].
Qed.

(** X11: RequestPort is the first thing the worker posts, and it is never
    posted again. *)
Theorem request_port_is_posted_once (w : World) :
  reachable ext w →
  head (effects w)
  = Some (PostMessage (mkToSharedProcess SharedProcessWorkerMessages.RequestPort None))
  ∧ count_posted SharedProcessWorkerMessages.RequestPort (effects w) = 1.
Proof.
  intros Hreach. split.
  - destruct (ev_effects _ _ (reachable_evolves w Hreach)) as [rest ->]. reflexivity.
  - apply (log_request _ (proj1 (reachable_log_and_wiring w Hreach))).
Qed.

(** X12: the worker has posted WorkerReady exactly once for each child it
    has forked: the number of WorkerReady messages, the number of
    successful [fork] calls and the number of children are the same. *)
Theorem ready_is_posted_once_per_fork (w : World) :
  reachable ext w →
  count_posted SharedProcessWorkerMessages.WorkerReady (effects w) = length (children w)
  ∧ count_effect is_fork (effects w) = length (children w).
Proof.
  intros Hreach. destruct (reachable_log_and_wiring w Hreach) as [Hlog _].
  split; [apply (log_ready _ Hlog) | apply (log_forks _ Hlog)].
Qed.

(** X13: the worker calls [close()] as often as it kills a child; and as
    long as [close()] has not been called, no controller is disposed and no
    child has been killed. *)
Theorem every_kill_closes_the_worker (w : World) :
  reachable ext w →
  count_effect is_kill (effects w) = count_effect is_close (effects w)
  ∧ (closed w = false →
     (∀ this, disposed w this = false)
     ∧ (∀ c ch, children w !! c = Some ch → killed ch = false)
     ∧ count_effect is_kill (effects w) = 0).
Proof.
  intros Hreach. destruct (reachable_log_and_wiring w Hreach) as [Hlog Hwire].
  split; [apply (log_kills _ Hlog)|]. intros Hcl.
  assert (Hnone : ∀ this, disposed w this = false).
  { intros this. destruct (disposed w this) eqn:E; [|reflexivity].
    rewrite (wired_disposed _ Hwire _ E) in Hcl. discriminate. }
  split; [exact Hnone|]. split.
  - intros c ch Hch.
    destruct (wired_owned _ Hwire _ _ Hch) as (this & p & Hl & Hp & Hc).
    destruct (wired_owner _ Hwire _ _ _ Hp Hc) as (ch' & Hch' & _ & Hk).
    rewrite Hch in Hch'. injection Hch' as <-. rewrite Hk.
    specialize (Hnone this). unfold disposed in Hnone. now rewrite Hp in Hnone.
  - rewrite (log_kills _ Hlog).
    destruct (count_effect is_close (effects w)) eqn:E; [reflexivity|].
    assert (closed w = true) by (apply (log_closed _ Hlog); lia). congruence.
Qed.

(** X14: every forked child has its listeners on exactly one controller,
    the one whose [child] field holds it; the child has been sent a kill
    exactly when that controller is disposed; and two controllers never
    hold the same child. *)
Theorem every_child_has_one_controller (w : World) :
  reachable ext w →
  (∀ c ch,
     children w !! c = Some ch →
     ∃ this p, listeners ch = Some this ∧ processes w !! this = Some p
               ∧ child p = Some c ∧ killed ch = isDisposed p)
  ∧ (∀ this1 this2 p1 p2 c,
       processes w !! this1 = Some p1 → processes w !! this2 = Some p2 →
       child p1 = Some c → child p2 = Some c → this1 = this2).
Proof.
  intros Hreach. destruct (reachable_log_and_wiring w Hreach) as [_ Hwire]. split.
  - intros c ch Hch.
    destruct (wired_owned _ Hwire _ _ Hch) as (this & p & Hl & Hp & Hc).
    destruct (wired_owner _ Hwire _ _ _ Hp Hc) as (ch' & Hch' & _ & Hk).
    rewrite Hch in Hch'. injection Hch' as <-. eauto 10.
  - intros this1 this2 p1 p2 c Hp1 Hp2 Hc1 Hc2.
    destruct (wired_owner _ Hwire _ _ _ Hp1 Hc1) as (ch1 & Hch1 & Hl1 & _).
    destruct (wired_owner _ Hwire _ _ _ Hp2 Hc2) as (ch2 & Hch2 & Hl2 & _).
    congruence.
Qed.


(** X18: whatever the worker handles, the log only grows at its end, a
    call of [close()] and the disposal of a controller are never undone,
    and no controller object is dropped. *)
Theorem worker_never_undoes (es : list Event) (w : World) :
  let w' := run ext es w in
  effects w `prefix_of` effects w'
  ∧ (closed w = true → closed w' = true)
  ∧ (∀ this, disposed w this = true → disposed w' this = true)
  ∧ (length (processes w) ≤ length (processes w'))%nat.
Proof.
  intros w'. destruct (evolves_run ext es w) as [H1 H2 H3 H4]. auto.
Qed.

Lemma quiet_not_send c e : quiet e = true → is_send_to c e = false.
Proof. now destruct e. Qed.

Lemma silent_child_transition c w w' :
  transition ext w w' →
  connected <$> children w !! c = Some false →
  connected <$> children w' !! c = Some false
  ∧ count_effect (is_send_to c) (effects w') = count_effect (is_send_to c) (effects w).
Proof.
  intros [new Hq Hps Hm Hch Hpt Hcl He
         |pid payload Hconn Hps Hm Hch Hpt Hcl He
         |pid Hps Hm Hch Hpt Hcl He
         |k this c0 p _ Hp Hc _ Hps Hm Hch Hpt Hcl He
         |p e Hc Hd Hps Hm Hch Hpt Hcl He
         |k p _ _ Hd Hps Hm Hch Hpt Hcl He] Hoff;
    rewrite Hch, He, ?count_effect_app.
  - split; [exact Hoff|]. rewrite (count_effect_quiet _ _ (quiet_not_send c) Hq). lia.
  - split; [exact Hoff|]. cbn. rewrite bool_decide_eq_false_2; [lia|].
    intros ->. congruence.
  - split; [|reflexivity]. rewrite list_lookup_alter. case_decide; [subst pid|exact Hoff].
    destruct (children w !! c); [reflexivity | discriminate].
  - split; [|cbn; lia]. rewrite list_lookup_alter. case_decide; [subst c0|exact Hoff].
    destruct (children w !! c); [exact Hoff | discriminate].
  - split; [exact Hoff | cbn; lia].
  - split; [|cbn; lia].
    destruct (children w !! c) as [ch|] eqn:E; [|discriminate].
    now rewrite (lookup_app_l_Some _ _ _ _ E).
Qed.

Lemma silent_child_transitions c w w' :
  rtc (transition ext) w w' →
  connected <$> children w !! c = Some false →
  connected <$> children w' !! c = Some false
  ∧ count_effect (is_send_to c) (effects w') = count_effect (is_send_to c) (effects w).
Proof.
  induction 1 as [|w1 w2 w3 Hmove _ IH]; [auto|]. intros Hoff.
  destruct (silent_child_transition c _ _ Hmove Hoff) as [Hoff2 Hn2].
  destruct (IH Hoff2) as [Hoff3 Hn3]. split; [exact Hoff3 | congruence].
Qed.

(** X16: a child that has lost its channel never gets it back and is
    never sent another buffer, whatever the worker handles afterwards. *)
Theorem disconnected_child_gets_no_more_sends (w : World) (c : nat) (es : list Event) :
  reachable ext w →
  connected <$> children w !! c = Some false →
  connected <$> children (run ext es w) !! c = Some false
  ∧ count_effect (is_send_to c) (effects (run ext es w))
    = count_effect (is_send_to c) (effects w).
Proof.
  revert w. induction es as [|e es IH]; intros w Hreach Hoff; [auto|]. cbn.
  destruct (silent_child_transitions c w (step ext w e)) as [Hoff1 Hn1]; auto.
  { apply step_transitions, reachable_registry_ok, Hreach. }
  destruct (IH (step ext w e)) as [Hoff2 Hn2]; auto.
  { now constructor. }
  split; [exact Hoff2|]. unfold run in Hn2. congruence.
Qed.

(** X17: a handoff on a key without entry followed by a Terminate message
    for a configuration that differs at most in its nonce: the Terminate
    finds the controller of the handoff, kills its child, calls [close()]
    and leaves the registry as it was before the handoff. *)
Theorem handoff_then_terminate (v v' : ConfigurationValue)
    (environment : ISharedProcessWorkerEnvironment)
    (environment' : option ISharedProcessWorkerEnvironment)
    (port : nat) (transfer : list Transferable) (w : World) :
  process_value v' = process_value v →
  windowId (reply_value v') = windowId (reply_value v) →
  channel (reply_value v') = channel (reply_value v) →
  let k := hashObject ext (mkConfigurationValue (process_value v)
                             (blank_nonce (reply_value v))) in
  let new := length (processes w) in
  mapConfigurationToProcess w !! k = None →
  fork_outcome ext
    (fresh_controller port
       (mkConfiguration (process_value v) (fresh (dom (replyHeap w)))) environment)
    (length (children w)) = None →
  let w1 := step ext w (OnMessage SharedProcessWorkerMessages.ReceivePort v
                          (Some environment) [MessagePort port]) in
  let w2 := step ext w1 (OnMessage SharedProcessWorkerMessages.WorkerTerminate v'
                           environment' transfer) in
  mapConfigurationToProcess w1 !! k = Some new
  ∧ live w1 new = true
  ∧ mapConfigurationToProcess w2 = mapConfigurationToProcess w
  ∧ live w2 new = false
  ∧ closed w2 = true
  ∧ effects w2 = (effects w1 ++ [trace_message "Terminating worker process";
                                 Kill (length (children w)); Close])%list.
Proof.
  intros Hproc Hwin Hchan k new Hm Hf w1 w2.
  set (l1 := fresh (dom (replyHeap w))) in *.
  set (cfg1 := mkConfiguration (process_value v) l1).
  set (wr := set_replyHeap <[l1 := reply_value v]> w).
  destruct (first_handoff_run port cfg1 environment wr k)
    as (w1' & Hrun1 & He1 & Hps1 & Hch1 & Hm1 & Hpt1 & Hcl1); auto.
  { unfold key_of. cbn. now rewrite lookup_insert_eq. }
  assert (Hw1 : w1 = snd (onReceivePort ext port cfg1 environment wr)) by reflexivity.
  rewrite Hrun1 in Hw1. cbn [snd] in Hw1.
  clearbody w1. subst w1'. cbn in Hps1, Hch1, Hm1.
  set (l2 := fresh (dom (replyHeap w1))) in *.
  set (cfg2 := mkConfiguration (process_value v') l2).
  set (wr2 := set_replyHeap <[l2 := reply_value v']> w1).
  set (pnew := mkWorkerProcess port cfg1 environment (Some (length (children w))) false).
  assert (Hk' : k = hashObject ext (mkConfigurationValue (process cfg2)
                                      (blank_nonce (reply_value v')))).
  { unfold k, blank_nonce. cbn. now rewrite Hproc, Hwin, Hchan. }
  assert (Hpn : processes wr2 !! new = Some pnew).
  { cbn. rewrite Hps1. apply lookup_snoc. }
  assert (Hr2 : replyHeap wr2 !! reply cfg2 = Some (reply_value v')).
  { cbn. apply lookup_insert_eq. }
  assert (Hm2 : mapConfigurationToProcess wr2 !! k = Some new).
  { cbn. rewrite Hm1. apply lookup_insert_eq. }
  assert (Hrun2 := terminate_present ext cfg2 wr2 k (reply_value v') new pnew
                     Hr2 Hk' Hm2 Hpn).
  assert (Hw2 : w2 = snd (terminate ext cfg2 wr2)) by reflexivity.
  rewrite Hrun2 in Hw2. cbn [snd] in Hw2. clearbody w2. subst w2.
  split; [rewrite Hm1; apply lookup_insert_eq|].
  split; [unfold live, new; rewrite Hps1, lookup_snoc; reflexivity|].
  split; [cbn; rewrite Hm1; now apply delete_insert_id|].
  split; [unfold live, new; cbn; rewrite Hps1, list_lookup_alter_eq, lookup_snoc;
          reflexivity|].
  split; [reflexivity|].
  cbn. now rewrite <- !app_assoc.
Qed.

End MoreFacts.

(** * The further properties, run on the sample hosts *)

Lemma hash_twice_is_hash_once_witness :
  let configuration := mkConfiguration (mkProcess "m1" "t1") 0 in
  let w := set_replyHeap <[0 := mkReply 1 "c" "a"]> create in
  hash Sample.ext configuration (snd (hash Sample.ext configuration w))
  = hash Sample.ext configuration w.
Proof.
  intros configuration w.
  apply (hash_twice_is_hash_once Sample.ext configuration w (mkReply 1 "c" "a")).
  reflexivity.
Defined.

Lemma hash_changes_only_the_nonce_witness :
  let configuration := mkConfiguration (mkProcess "m1" "t1") 0 in
  let w := set_replyHeap (fun _ => {[ 0 := mkReply 1 "c" "a"; 1 := mkReply 2 "d" "b" ]})
                         create in
  let w' := snd (hash Sample.ext configuration w) in
  replyHeap w' !! 0 = Some (mkReply 1 "c" "")
  ∧ replyHeap w' !! 1 = Some (mkReply 2 "d" "b")
  ∧ effects w' = effects w.
Proof.
  intros configuration w w'.
  destruct (hash_changes_only_the_nonce Sample.ext configuration w (mkReply 1 "c" "a"))
    as (H0 & Hother & _ & _ & _ & _ & _ & Heff); [reflexivity|].
  split; [exact H0|]. split; [|exact Heff].
  unfold w'. rewrite (Hother 1); [reflexivity | discriminate].
Defined.

Lemma getEnv_overlays_the_inherited_environment_witness :
  ∃ env,
    getEnv Sample.ext_env Sample.controller0
    = removeDangerousEnvVariables Sample.ext_env env
    ∧ env !! "VSCODE_PIPE_LOGGING" = Some "true"
    ∧ env !! "VSCODE_AMD_ENTRYPOINT" = Some "m1"
    ∧ env !! "HOME" = Some "/home/user".
Proof.
  destruct (getEnv_overlays_the_inherited_environment Sample.ext_env Sample.controller0)
    as (env & Heq & Hentry & Hpipe & _ & _ & Hrest).
  exists env. split; [exact Heq|]. split; [exact Hpipe|]. split; [exact Hentry|].
  rewrite Hrest; [|reflexivity]. vm_compute. reflexivity.
Defined.

Lemma dispose_twice_witness :
  let w := run Sample.ext [Sample.handoff (Sample.m1 "a") 7] create in
  let w1 := snd (dispose 0 w) in
  ∃ w2, dispose 0 w1 = (Normal tt, w2)
        ∧ processes w2 = processes w1
        ∧ children w2 = children w1
        ∧ mapConfigurationToProcess w2 = mapConfigurationToProcess w1
        ∧ closed w2 = closed w1
        ∧ disposed w2 0 = true
        ∧ effects w2 = (effects w1 ++ [Kill 0])%list.
Proof.
  intros w.
  apply (dispose_twice 0 w Sample.controller0). vm_compute. reflexivity.
Defined.

Lemma child_messages_are_relayed_in_order_witness :
  let w := run Sample.ext [Sample.handoff (Sample.m1 "a") 7] create in
  let w' := run Sample.ext (ChildMessage 0 <$> ["aGk="; "__$console"; "eW8="]) w in
  effects w' = (effects w ++ [PortPostMessage 7 []; 
                              ConsoleLog "__$console" "SharedProcess worker";
                              PortPostMessage 7 []])%list
  ∧ only_logs w w'.
Proof.
  intros w.
  apply (child_messages_are_relayed_in_order Sample.ext 0 0 (mkChild true false (Some 0))
           Sample.controller0 ["aGk="; "__$console"; "eW8="] w);
    vm_compute; reflexivity.
Defined.

Lemma port_messages_are_forwarded_in_order_witness :
  let w := run Sample.ext [Sample.handoff (Sample.m1 "a") 7] create in
  let w' := run Sample.ext (PortMessage 7 <$> [[]; []]) w in
  effects w' = (effects w ++ [ChildSend 0 ""; ChildSend 0 ""])%list
  ∧ only_logs w w'.
Proof.
  intros w.
  apply (port_messages_are_forwarded_in_order Sample.ext 7 0 0 Sample.controller0
           [[]; []] w);
    vm_compute; reflexivity.
Defined.

Lemma first_handoff_registers_witness :
  let w := set_replyHeap <[0 := mkReply 1 "c" "a"]> create in
  let configuration := mkConfiguration (mkProcess "m1" "t1") 0 in
  ∃ w',
    onReceivePort Sample.ext 7 configuration Sample.env w = (Normal tt, w')
    ∧ processes w' = [Sample.controller0]
    ∧ children w' = [mkChild true false (Some 0)]
    ∧ mapConfigurationToProcess w' = {[ Sample.key1 := 0 ]}
    ∧ closed w' = false.
Proof.
  intros w configuration.
  destruct (first_handoff_registers Sample.ext 7 configuration Sample.env w Sample.key1)
    as (w' & Hrun & _ & Hps & Hch & Hm & _ & Hcl);
    [vm_compute; reflexivity | reflexivity | reflexivity |].
  exists w'. split; [exact Hrun|]. split; [exact Hps|]. split; [exact Hch|].
  split; [exact Hm | exact Hcl].
Defined.


Lemma registry_entries_are_live_witness :
  let w := run Sample.ext [Sample.handoff (Sample.m1 "a") 7;
                           Sample.handoff (Sample.m2 "b") 8] create in
  mapConfigurationToProcess w !! Sample.key1 = Some 0
  ∧ live w 0 = true
  ∧ fingerprint_of Sample.ext w 0 = Some Sample.key1.
Proof.
  intros w.
  assert (Hm : mapConfigurationToProcess w !! Sample.key1 = Some 0)
    by (vm_compute; reflexivity).
  split; [exact Hm|].
  apply (proj1 (registry_entries_are_live Sample.ext w
                  (reachable_run Sample.ext _ _ (reachable_create Sample.ext)))
               Sample.key1 0 Hm).
Defined.

Lemma request_port_is_posted_once_witness :
  let w := run Sample.ext [Sample.handoff (Sample.m1 "a") 7;
                           Sample.terminate_request (Sample.m1 "b");
                           Sample.handoff (Sample.m1 "c") 8] create in
  head (effects w)
  = Some (PostMessage (mkToSharedProcess SharedProcessWorkerMessages.RequestPort None))
  ∧ count_posted SharedProcessWorkerMessages.RequestPort (effects w) = 1.
Proof.
  intros w. apply (request_port_is_posted_once Sample.ext w).
  apply reachable_run, reachable_create.
Defined.

Lemma ready_is_posted_once_per_fork_witness :
  let w := run Sample.ext_failing [Sample.handoff (Sample.m1 "a") 7;
                                   Sample.handoff (Sample.m2 "b") 8] create in
  count_posted SharedProcessWorkerMessages.WorkerReady (effects w) = length (children w)
  ∧ count_effect is_fork (effects w) = length (children w)
  ∧ length (children w) = 1.
Proof.
  intros w.
  destruct (ready_is_posted_once_per_fork Sample.ext_failing w) as [H1 H2].
  - apply reachable_run, reachable_create.
  - split; [exact H1|]. split; [exact H2|]. vm_compute. reflexivity.
Defined.

Lemma every_kill_closes_the_worker_witness :
  let w := run Sample.ext [Sample.handoff (Sample.m1 "a") 7;
                           Sample.handoff (Sample.m1 "b") 8] create in
  count_effect is_kill (effects w) = count_effect is_close (effects w)
  ∧ count_effect is_kill (effects w) = 1
  ∧ closed w = true.
Proof.
  intros w.
  destruct (every_kill_closes_the_worker Sample.ext w) as [H _].
  - apply reachable_run, reachable_create.
  - split; [exact H|]. split; vm_compute; reflexivity.
Defined.

Lemma every_child_has_one_controller_witness :
  let w := run Sample.ext [Sample.handoff (Sample.m1 "a") 7;
                           Sample.handoff (Sample.m1 "b") 8] create in
  ∃ this p, listeners (mkChild true true (Some 0)) = Some this
            ∧ processes w !! this = Some p
            ∧ child p = Some 0
            ∧ killed (mkChild true true (Some 0)) = isDisposed p.
Proof.
  intros w.
  apply (proj1 (every_child_has_one_controller Sample.ext w
                  (reachable_run Sample.ext _ _ (reachable_create Sample.ext)))
               0 (mkChild true true (Some 0))).
  vm_compute. reflexivity.
Defined.


Lemma disconnected_child_gets_no_more_sends_witness :
  let w := run Sample.ext [Sample.handoff (Sample.m1 "a") 7; PortMessage 7 [];
                           ChildDisconnect 0] create in
  let w' := run Sample.ext [PortMessage 7 []; Sample.handoff (Sample.m2 "b") 8;
                            PortMessage 7 []] w in
  connected <$> children w' !! 0 = Some false
  ∧ count_effect (is_send_to 0) (effects w') = count_effect (is_send_to 0) (effects w)
  ∧ count_effect (is_send_to 0) (effects w) = 1.
Proof.
  intros w w'.
  destruct (disconnected_child_gets_no_more_sends Sample.ext w 0
              [PortMessage 7 []; Sample.handoff (Sample.m2 "b") 8; PortMessage 7 []])
    as [H1 H2].
  - apply reachable_run, reachable_create.
  - vm_compute. reflexivity.
  - split; [exact H1|]. split; [exact H2|]. vm_compute. reflexivity.
Defined.

Lemma handoff_then_terminate_witness :
  let w1 := step Sample.ext create (Sample.handoff (Sample.m1 "a") 7) in
  let w2 := step Sample.ext w1 (Sample.terminate_request (Sample.m1 "b")) in
  mapConfigurationToProcess w1 !! Sample.key1 = Some 0
  ∧ live w1 0 = true
  ∧ mapConfigurationToProcess w2 = ∅
  ∧ live w2 0 = false
  ∧ closed w2 = true
  ∧ effects w2 = (effects w1 ++ [trace_message "Terminating worker process";
                                 Kill 0; Close])%list.
Proof.
  apply (handoff_then_terminate Sample.ext (Sample.m1 "a") (Sample.m1 "b") Sample.env
           None 7 [] create); reflexivity.
Defined.
